(** * Cloud Service Referee: the comparison pipeline

    A shallow embedding of the rule tables, the evaluator, the trade-off
    analyzer, the explanation generator and the comparison engine of the
    Cloud Service Referee, with the properties its specification states. *)

From Stdlib Require Import String Ascii ZArith Bool.
From stdpp Require Import gmap strings list fin_maps pretty.

Local Open Scope Z_scope.

(** ** Python strings

    All texts of the program are ASCII; [lower] is [str.lower] on ASCII,
    [str_in needle hay] is [needle in hay], and [join sep parts] is
    [sep.join(parts)]. *)

Definition lower_ascii (c : ascii) : ascii :=
  let n := N_of_ascii c in
  if ((65 <=? n) && (n <=? 90))%N then ascii_of_N (n + 32) else c.

Fixpoint lower (s : string) : string :=
  match s with
  | EmptyString => EmptyString
  | String c rest => String (lower_ascii c) (lower rest)
  end.

Fixpoint str_in (needle hay : string) : bool :=
  String.prefix needle hay ||
  match hay with
  | EmptyString => false
  | String _ rest => str_in needle rest
  end.

Definition join (sep : string) (parts : list string) : string :=
  String.concat sep parts.

(** ** Python exceptions

    The part of the built-in class hierarchy below [Exception] that the
    program can raise or that the specification names.  Each class has its
    direct base class; [Exception] is the root here. *)

Inductive exc_class :=
  | Exception | LookupError | KeyError | IndexError
  | ValueError | RuntimeError | AssertionError.

Definition base_class (c : exc_class) : option exc_class :=
  match c with
  | Exception => None
  | LookupError | ValueError | RuntimeError | AssertionError => Some Exception
  | KeyError | IndexError => Some LookupError
  end.

Global Instance exc_class_eq_dec : EqDecision exc_class.
Proof. solve_decision. Defined.

(** [issubclass c d]: [d] is [c] or one of its bases (the hierarchy is two
    levels deep). *)
Definition issubclass (c d : exc_class) : bool :=
  bool_decide (c = d)
  || match base_class c with
     | None => false
     | Some b =>
         bool_decide (b = d)
         || match base_class b with
            | None => false
            | Some b' => bool_decide (b' = d)
            end
     end.

(** An exception object: its class, [str(e)], and [__cause__]
    (set by [raise ... from e]). *)
#[warning="-register-all"] Inductive exn :=
  | Exn (cls : exc_class) (msg : string) (cause : option exn).

Definition exn_class (e : exn) : exc_class := let 'Exn c _ _ := e in c.
Definition exn_str (e : exn) : string := let 'Exn _ m _ := e in m.
Definition exn_cause (e : exn) : option exn := let 'Exn _ _ c := e in c.

Definition isinstance (e : exn) (c : exc_class) : bool :=
  issubclass (exn_class e) c.

(** A computation that returns a value or raises. *)
Inductive result (A : Type) :=
  | Ok (a : A)
  | Raise (e : exn).
Arguments Ok {A} a.
Arguments Raise {A} e.

Global Instance result_ret : MRet result := λ A a, Ok a.
Global Instance result_bind : MBind result := λ A B k r,
  match r with
  | Ok a => k a
  | Raise e => Raise e
  end.

(** [py A]: the type of a call that returns an [A] or raises. *)
Abbreviation py := result (only parsing).

Definition raise {A} (c : exc_class) (m : string) : result A :=
  Raise (Exn c m None).

(** ** models.py *)

Inductive ConstraintLevel := LOW | MEDIUM | HIGH.

Global Instance ConstraintLevel_eq_dec : EqDecision ConstraintLevel.
Proof. solve_decision. Defined.

Definition level_value (l : ConstraintLevel) : string :=
  match l with LOW => "Low" | MEDIUM => "Medium" | HIGH => "High" end.

Inductive ServiceType := EC2 | LAMBDA | ECS_FARGATE.

Definition service_value (s : ServiceType) : string :=
  match s with EC2 => "EC2" | LAMBDA => "Lambda" | ECS_FARGATE => "ECS_Fargate" end.

Record UserConstraints := {
  budget_sensitivity : ConstraintLevel;
  expected_traffic : ConstraintLevel;
  scalability_requirement : ConstraintLevel;
  latency_sensitivity : ConstraintLevel;
  operational_overhead_tolerance : ConstraintLevel;
  time_to_market_urgency : ConstraintLevel
}.

Record ServiceEvaluation := {
  service_name : string;
  constraint_scores : gmap string Z;
  strengths : list string;
  limitations : list string;
  best_use_cases : list string
}.

Record TradeOffAnalysis := {
  cost_vs_control : string;
  latency_vs_ops_complexity : string;
  edge_case_warnings : list string;
  conflicting_constraints : list string
}.

Record ComparisonResult := {
  evaluations : gmap string ServiceEvaluation;
  trade_off_analysis : TradeOffAnalysis;
  contextual_recommendations : gmap string string;
  result_edge_case_warnings : list string
}.

Module ServiceCharacteristics.
Record t := {
  name : string;
  strengths : list string;
  limitations : list string;
  best_use_cases : list string;
  cost_model : string;
  scaling_characteristics : string;
  operational_overhead : string
}.
End ServiceCharacteristics.

(** ** interfaces.py

    The abstract base classes the components are wired through. *)

Record ScoringSystemInterface := {
  score_service_against_constraint : string → string → string → result Z;
  get_all_scores : string → UserConstraints → result (gmap string Z)
}.

Record ServiceRepositoryInterface := {
  get_service_characteristics : string → result ServiceCharacteristics.t;
  get_all_services : list string
}.

(** ** scoring_system.py *)

Module ScoringSystem.

(** One row of the table: the scores of the three services at a level. *)
Definition row (ec2 lambda fargate : Z) : gmap string Z :=
  {[ service_value EC2 := ec2;
     service_value LAMBDA := lambda;
     service_value ECS_FARGATE := fargate ]}.

Definition levels (low medium high : gmap string Z) : gmap string (gmap string Z) :=
  {[ level_value LOW := low;
     level_value MEDIUM := medium;
     level_value HIGH := high ]}.

Definition _initialize_scoring_rules : gmap string (gmap string (gmap string Z)) :=
  {[ "budget_sensitivity" :=
       levels (row 4 3 2) (row 5 3 2) (row 5 2 1);
     "expected_traffic" :=
       levels (row 2 5 3) (row 4 4 4) (row 5 3 4);
     "scalability_requirement" :=
       levels (row 3 4 4) (row 4 5 5) (row 3 5 4);
     "latency_sensitivity" :=
       levels (row 4 3 4) (row 5 3 4) (row 5 1 3);
     "operational_overhead_tolerance" :=
       levels (row 1 5 4) (row 2 5 4) (row 4 4 3);
     "time_to_market_urgency" :=
       levels (row 3 4 3) (row 2 5 4) (row 1 5 3) ]}.

Section WithRules.
(** [self._scoring_rules] *)
Variable _scoring_rules : gmap string (gmap string (gmap string Z)).

Definition score_service_against_constraint
    (service constraint value : string) : result Z :=
  match _scoring_rules !! constraint with
  | None => raise ValueError ("Unknown constraint: " +:+ constraint)
  | Some by_level =>
      match by_level !! value with
      | None => raise ValueError ("Unknown constraint value: " +:+ value)
      | Some by_service =>
          match by_service !! service with
          | None => raise ValueError ("Unknown service: " +:+ service)
          | Some score =>
              if negb ((1 <=? score) && (score <=? 5)) then
                raise ValueError
                  ("Invalid score " +:+ pretty score +:+ " for " +:+ service
                   +:+ " on " +:+ constraint +:+ "=" +:+ value)
              else Ok score
          end
      end
  end.

(** The [constraint_mapping] literal, in the order it is written. *)
Definition constraint_mapping (constraints : UserConstraints)
    : list (string * string) :=
  [ ("budget_sensitivity", level_value (budget_sensitivity constraints));
    ("expected_traffic", level_value (expected_traffic constraints));
    ("scalability_requirement", level_value (scalability_requirement constraints));
    ("latency_sensitivity", level_value (latency_sensitivity constraints));
    ("operational_overhead_tolerance",
       level_value (operational_overhead_tolerance constraints));
    ("time_to_market_urgency", level_value (time_to_market_urgency constraints)) ].

(** The loop of [get_all_scores] over the items still to visit. *)
Fixpoint get_all_scores_loop (service : string)
    (items : list (string * string)) (scores : gmap string Z)
    : result (gmap string Z) :=
  match items with
  | [] => Ok scores
  | (constraint_name, constraint_value) :: rest =>
      s ← score_service_against_constraint service constraint_name constraint_value;
      get_all_scores_loop service rest (<[constraint_name := s]> scores)
  end.

Definition get_all_scores (service : string) (constraints : UserConstraints)
    : result (gmap string Z) :=
  get_all_scores_loop service (constraint_mapping constraints) ∅.

Definition expected_constraints : list string :=
  [ "budget_sensitivity"; "expected_traffic"; "scalability_requirement";
    "latency_sensitivity"; "operational_overhead_tolerance";
    "time_to_market_urgency" ].
Definition expected_levels : list string :=
  [ level_value LOW; level_value MEDIUM; level_value HIGH ].
Definition expected_services : list string :=
  [ service_value EC2; service_value LAMBDA; service_value ECS_FARGATE ].

Definition validate_all_rules : bool :=
  forallb (λ constraint,
    match _scoring_rules !! constraint with
    | None => false
    | Some by_level =>
        forallb (λ level,
          match by_level !! level with
          | None => false
          | Some by_service =>
              forallb (λ service,
                match by_service !! service with
                | None => false
                | Some score => (1 <=? score) && (score <=? 5)
                end) expected_services
          end) expected_levels
    end) expected_constraints.
End WithRules.

(** [ScoringSystem()] *)
Definition new : ScoringSystemInterface :=
  Build_ScoringSystemInterface
    (score_service_against_constraint _initialize_scoring_rules)
    (get_all_scores _initialize_scoring_rules).

End ScoringSystem.

(** ** service_repository.py *)

Module ServiceRepository.

(** The [_services] literal, in the order it is written. *)
Definition _initialize_services : list (string * ServiceCharacteristics.t) :=
  [ (service_value EC2,
     {| ServiceCharacteristics.name := "AWS EC2";
        ServiceCharacteristics.strengths :=
          [ "Full control over infrastructure and OS";
            "Cost optimization potential with reserved instances";
            "Performance tuning capabilities";
            "Support for specialized hardware (GPU, high-memory)";
            "No vendor lock-in for application code";
            "Mature ecosystem and tooling" ];
        ServiceCharacteristics.limitations :=
          [ "High operational overhead (patching, monitoring, scaling)";
            "Slower provisioning and scaling compared to serverless";
            "Requires infrastructure expertise";
            "Manual capacity planning needed";
            "Responsibility for security and maintenance" ];
        ServiceCharacteristics.best_use_cases :=
          [ "Legacy systems requiring specific OS configurations";
            "Applications needing specialized hardware";
            "Long-running, predictable workloads";
            "Teams with strong infrastructure capabilities";
            "Cost-sensitive applications with predictable usage" ];
        ServiceCharacteristics.cost_model :=
          "Pay for compute time, potential savings with reserved instances";
        ServiceCharacteristics.scaling_characteristics :=
          "Manual or auto-scaling, slower response time";
        ServiceCharacteristics.operational_overhead :=
          "High - full infrastructure management required" |});
    (service_value LAMBDA,
     {| ServiceCharacteristics.name := "AWS Lambda";
        ServiceCharacteristics.strengths :=
          [ "Zero infrastructure management";
            "Automatic scaling from zero to thousands";
            "Pay only for actual execution time";
            "Fast prototyping and development";
            "Built-in high availability";
            "Event-driven architecture support" ];
        ServiceCharacteristics.limitations :=
          [ "Cold start latency (100-800ms for most runtimes)";
            "15-minute maximum execution time";
            "Vendor lock-in with AWS-specific APIs";
            "Cost can scale unpredictably with high usage";
            "Limited runtime environment control";
            "Debugging complexity in distributed systems" ];
        ServiceCharacteristics.best_use_cases :=
          [ "Event-driven processing (S3, DynamoDB triggers)";
            "Low-traffic web APIs and microservices";
            "Scheduled tasks and cron jobs";
            "Rapid prototyping and MVPs";
            "Teams wanting zero infrastructure management" ];
        ServiceCharacteristics.cost_model :=
          "Pay per request and execution time, can become expensive at scale";
        ServiceCharacteristics.scaling_characteristics :=
          "Instant automatic scaling, handles traffic spikes well";
        ServiceCharacteristics.operational_overhead :=
          "Very low - AWS manages all infrastructure" |});
    (service_value ECS_FARGATE,
     {| ServiceCharacteristics.name := "AWS ECS Fargate";
        ServiceCharacteristics.strengths :=
          [ "Container benefits without cluster management";
            "Faster provisioning than EC2";
            "No server management required";
            "Good for microservices architecture";
            "Integrated with AWS ecosystem";
            "Predictable pricing model" ];
        ServiceCharacteristics.limitations :=
          [ "Higher per-unit cost than EC2";
            "Limited runtime control compared to EC2";
            "No support for spot instances";
            "Less flexibility than self-managed containers";
            "Still requires container expertise";
            "Slower cold starts than Lambda" ];
        ServiceCharacteristics.best_use_cases :=
          [ "Containerized web applications";
            "Microservices without Kubernetes complexity";
            "Teams familiar with containers but not infrastructure";
            "Applications requiring more control than Lambda";
            "Batch processing jobs" ];
        ServiceCharacteristics.cost_model :=
          "Pay for allocated CPU and memory, higher than EC2 per unit";
        ServiceCharacteristics.scaling_characteristics :=
          "Automatic scaling, faster than EC2 but slower than Lambda";
        ServiceCharacteristics.operational_overhead :=
          "Medium - container management without server management" |}) ].

Section WithServices.
(** [self._services]: the dict as the list of its items in insertion order
    (keys distinct); lookups go through the finite map of these items. *)
Variable _services : list (string * ServiceCharacteristics.t).

Definition get_service_characteristics (service : string)
    : result ServiceCharacteristics.t :=
  match (list_to_map _services : gmap string ServiceCharacteristics.t) !! service with
  | None => raise ValueError ("Unknown service: " +:+ service)
  | Some characteristics => Ok characteristics
  end.

Definition get_all_services : list string := _services.*1.

Definition get_service_names : list string :=
  ServiceCharacteristics.name <$> _services.*2.
End WithServices.

(** A repository over a given table, and [ServiceRepository()]. *)
Definition over (services : list (string * ServiceCharacteristics.t))
    : ServiceRepositoryInterface :=
  Build_ServiceRepositoryInterface
    (get_service_characteristics services) (get_all_services services).

Definition new : ServiceRepositoryInterface := over _initialize_services.

End ServiceRepository.

(** ** interfaces.py, continued

    The engine calls [validate_no_winner_declaration] on its evaluator,
    although the abstract class does not declare it.  Any method of an
    injected component may raise. *)

Record ConstraintEvaluatorInterface := {
  evaluate_services : UserConstraints → result (gmap string ServiceEvaluation);
  evaluate_single_service : string → UserConstraints → result ServiceEvaluation;
  validate_no_winner_declaration : gmap string ServiceEvaluation → result bool
}.

Record TradeOffAnalyzerInterface := {
  analyze_trade_offs :
    gmap string ServiceEvaluation → UserConstraints → result TradeOffAnalysis;
  identify_constraint_conflicts : UserConstraints → result (list string)
}.

Record ExplanationGeneratorInterface := {
  generate_contextual_recommendations :
    gmap string ServiceEvaluation → UserConstraints → result (gmap string string);
  generate_trade_off_explanations : TradeOffAnalysis → result (gmap string string)
}.

(** ** constraint_evaluator.py *)

Module ConstraintEvaluator.

Section WithDependencies.
Variable scoring_system : ScoringSystemInterface.
Variable service_repository : ServiceRepositoryInterface.

Definition evaluate_single_service (service : string)
    (constraints : UserConstraints) : result ServiceEvaluation :=
  characteristics ← get_service_characteristics service_repository service;
  constraint_scores ← get_all_scores scoring_system service constraints;
  Ok {| service_name := ServiceCharacteristics.name characteristics;
        constraint_scores := constraint_scores;
        strengths := ServiceCharacteristics.strengths characteristics;
        limitations := ServiceCharacteristics.limitations characteristics;
        best_use_cases := ServiceCharacteristics.best_use_cases characteristics |}.

(** The loop of [evaluate_services] over the services still to visit. *)
Fixpoint evaluate_services_loop (services : list string)
    (constraints : UserConstraints)
    (evaluations : gmap string ServiceEvaluation)
    : result (gmap string ServiceEvaluation) :=
  match services with
  | [] => Ok evaluations
  | service :: rest =>
      evaluation ← evaluate_single_service service constraints;
      evaluate_services_loop rest constraints (<[service := evaluation]> evaluations)
  end.

Definition evaluate_services (constraints : UserConstraints)
    : result (gmap string ServiceEvaluation) :=
  evaluate_services_loop (get_all_services service_repository) constraints ∅.

(** [all_text] of [validate_no_winner_declaration], before [.lower()]. *)
Definition all_text (evaluation : ServiceEvaluation) : string :=
  join " " [ service_name evaluation;
             join " " (strengths evaluation);
             join " " (limitations evaluation);
             join " " (best_use_cases evaluation) ].

Definition winner_words : list string :=
  [ "best"; "winner"; "optimal"; "perfect"; "ideal choice" ].

(** Returns [False] at the first evaluation whose text holds a winner word,
    so [True] exactly when no evaluation does, in whatever order the dict
    is visited. *)
Definition validate_no_winner_declaration
    (evaluations : gmap string ServiceEvaluation) : bool :=
  forallb (λ item : string * ServiceEvaluation,
    forallb (λ word, negb (str_in word (lower (all_text item.2)))) winner_words)
    (map_to_list evaluations).
End WithDependencies.

(** [_ensure_evaluation_independence]: the asserts on [eval1], one item of
    the dict, against [eval2], each item after it.  The keys come from the
    dict itself, so [evaluations[service]] is the value of the item. *)
Fixpoint assert_distinct_from (item1 : string * ServiceEvaluation)
    (rest : list (string * ServiceEvaluation)) : result unit :=
  match rest with
  | [] => Ok ()
  | item2 :: rest' =>
      let '(service1, eval1) := item1 in
      let '(service2, eval2) := item2 in
      if bool_decide (service_name eval1 = service_name eval2) then
        raise AssertionError
          ("Services " +:+ service1 +:+ " and " +:+ service2
           +:+ " have identical names")
      else if bool_decide (strengths eval1 = strengths eval2) then
        raise AssertionError
          ("Services " +:+ service1 +:+ " and " +:+ service2
           +:+ " have identical strengths")
      else if bool_decide (limitations eval1 = limitations eval2) then
        raise AssertionError
          ("Services " +:+ service1 +:+ " and " +:+ service2
           +:+ " have identical limitations")
      else assert_distinct_from item1 rest'
  end.

Fixpoint independence_loop (items : list (string * ServiceEvaluation))
    : result unit :=
  match items with
  | [] => Ok ()
  | item1 :: rest =>
      _ ← assert_distinct_from item1 rest;
      independence_loop rest
  end.

Definition _ensure_evaluation_independence
    (evaluations : gmap string ServiceEvaluation) : result unit :=
  independence_loop (map_to_list evaluations).

(** [ConstraintEvaluator(scoring_system, service_repository)] *)
Definition new (scoring_system : ScoringSystemInterface)
    (service_repository : ServiceRepositoryInterface)
    : ConstraintEvaluatorInterface :=
  Build_ConstraintEvaluatorInterface
    (evaluate_services scoring_system service_repository)
    (evaluate_single_service scoring_system service_repository)
    (λ evaluations, Ok (validate_no_winner_declaration evaluations)).

End ConstraintEvaluator.

(** ** trade_off_analyzer.py *)

Module TradeOffAnalyzer.

Definition _analyze_cost_vs_control_trade_offs
    (evaluations : gmap string ServiceEvaluation) (constraints : UserConstraints)
    : string :=
  let analysis_parts : list string := [] in
  let analysis_parts := analysis_parts ++ [
    "EC2 offers the highest level of infrastructure control but requires significant "
    +:+ "operational investment. This is a good choice when you need specialized hardware, "
    +:+ "custom OS configurations, or want to optimize costs through reserved instances. "
    +:+ "The trade-off here is between maximum flexibility and operational complexity." ] in
  let analysis_parts := analysis_parts ++
    (if bool_decide (budget_sensitivity constraints = HIGH) then [
       "Lambda eliminates infrastructure control in exchange for zero operational overhead. "
       +:+ "This may be a limitation if you need predictable costs at high scale, as Lambda "
       +:+ "pricing can become expensive with sustained high usage. This is a good choice when "
       +:+ "operational simplicity outweighs cost predictability." ]
     else [
       "Lambda trades infrastructure control for operational simplicity. The trade-off here "
       +:+ "is between hands-off management and cost predictability at scale." ]) in
  let analysis_parts := analysis_parts ++ [
    "ECS Fargate provides a middle ground, offering container-level control without server "
    +:+ "management. This may be a limitation if cost optimization is critical, as Fargate has "
    +:+ "higher per-unit costs than EC2. This is a good choice when you want container benefits "
    +:+ "without Kubernetes complexity." ] in
  join " " analysis_parts.

Definition _analyze_latency_vs_ops_trade_offs
    (evaluations : gmap string ServiceEvaluation) (constraints : UserConstraints)
    : string :=
  let analysis_parts : list string := [] in
  let analysis_parts := analysis_parts ++
    (if bool_decide (latency_sensitivity constraints = HIGH) then [
       "High latency sensitivity creates clear trade-offs between performance and operational complexity. "
       +:+ "EC2 provides the most consistent, low-latency performance but requires extensive operational "
       +:+ "management including monitoring, patching, and scaling configuration.";
       "Lambda's cold start latency (100-800ms) may be a limitation if consistent low latency "
       +:+ "is required. The trade-off here is between zero operational overhead and performance "
       +:+ "predictability.";
       "ECS Fargate offers better latency than Lambda but with some operational complexity. "
       +:+ "This is a good choice when you need better performance than Lambda but less operational "
       +:+ "overhead than EC2." ]
     else [
       "With moderate latency requirements, the trade-off shifts toward operational efficiency. "
       +:+ "Lambda's occasional cold starts become acceptable in exchange for zero infrastructure "
       +:+ "management. The trade-off here is between perfect performance and operational simplicity." ]) in
  join " " analysis_parts.

Definition _generate_edge_case_warnings (constraints : UserConstraints)
    : list string :=
  let warnings : list string := [] in
  let warnings := warnings ++
    (if bool_decide (budget_sensitivity constraints = HIGH)
        && bool_decide (scalability_requirement constraints = HIGH) then [
       "Budget-scalability tension: High budget sensitivity with high scalability creates "
       +:+ "inherent conflict. The trade-off here is between cost control and scaling capabilities. "
       +:+ "This may be a limitation if both constraints are equally important." ]
     else []) in
  let warnings := warnings ++
    (if bool_decide (latency_sensitivity constraints = HIGH)
        && bool_decide (expected_traffic constraints = HIGH) then [
       "Performance-scale challenge: High latency sensitivity with high traffic requires "
       +:+ "careful architecture. This is a good choice when consistent performance is critical, "
       +:+ "but may require significant infrastructure investment." ]
     else []) in
  let warnings := warnings ++
    (if bool_decide (time_to_market_urgency constraints = HIGH)
        && bool_decide (operational_overhead_tolerance constraints = LOW) then [
       "Speed-simplicity alignment: Fast time-to-market with low operational tolerance "
       +:+ "strongly favors serverless solutions. This is a good choice when rapid deployment "
       +:+ "is the priority, though it may limit long-term optimization options." ]
     else []) in
  warnings.

Definition identify_constraint_conflicts (constraints : UserConstraints)
    : list string :=
  let conflicts : list string := [] in
  let conflicts := conflicts ++
    (if bool_decide (budget_sensitivity constraints = HIGH)
        && bool_decide (latency_sensitivity constraints = HIGH)
     then [ "Budget sensitivity vs Latency sensitivity" ] else []) in
  let conflicts := conflicts ++
    (if bool_decide (budget_sensitivity constraints = HIGH)
        && bool_decide (scalability_requirement constraints = HIGH)
     then [ "Budget sensitivity vs Scalability requirement" ] else []) in
  let conflicts := conflicts ++
    (if bool_decide (time_to_market_urgency constraints = HIGH)
        && bool_decide (operational_overhead_tolerance constraints = HIGH)
     then [ "Time-to-market urgency vs Operational overhead tolerance" ] else []) in
  let conflicts := conflicts ++
    (if bool_decide (expected_traffic constraints = HIGH)
        && bool_decide (budget_sensitivity constraints = HIGH)
     then [ "Expected traffic vs Budget sensitivity" ] else []) in
  conflicts.

Definition analyze_trade_offs (evaluations : gmap string ServiceEvaluation)
    (constraints : UserConstraints) : TradeOffAnalysis :=
  let cost_vs_control := _analyze_cost_vs_control_trade_offs evaluations constraints in
  let latency_vs_ops := _analyze_latency_vs_ops_trade_offs evaluations constraints in
  let edge_case_warnings := _generate_edge_case_warnings constraints in
  let conflicting_constraints := identify_constraint_conflicts constraints in
  {| cost_vs_control := cost_vs_control;
     latency_vs_ops_complexity := latency_vs_ops;
     edge_case_warnings := edge_case_warnings;
     conflicting_constraints := conflicting_constraints |}.

(** [TradeOffAnalyzer()] *)
Definition new : TradeOffAnalyzerInterface :=
  Build_TradeOffAnalyzerInterface
    (λ evaluations constraints, Ok (analyze_trade_offs evaluations constraints))
    (λ constraints, Ok (identify_constraint_conflicts constraints)).

End TradeOffAnalyzer.

(** ** explanation_generator.py *)

Module ExplanationGenerator.

Definition required_phrases : list string :=
  [ "This is a good choice when";
    "This may be a limitation if";
    "The trade-off here is" ].

Definition _generate_ec2_recommendation (evaluation : ServiceEvaluation)
    (constraints : UserConstraints) : string :=
  let parts : list string := [] in
  let scores := constraint_scores evaluation in
  let parts := parts ++
    (if bool_decide (budget_sensitivity constraints = HIGH) then [
       "EC2 is a good choice when budget optimization is critical and you can commit to "
       +:+ "reserved instances or spot instances for significant cost savings." ]
     else if bool_decide (budget_sensitivity constraints = MEDIUM) then [
       "EC2 is a good choice when you want balanced cost control with the flexibility "
       +:+ "to optimize through instance types and pricing models." ]
     else [
       "EC2 is a good choice when cost is not the primary concern and you can prioritize "
       +:+ "performance and control over cost optimization." ]) in
  let parts := parts ++
    (if bool_decide (latency_sensitivity constraints = HIGH) then [
       "This is a good choice when consistent, predictable performance is required without "
       +:+ "cold starts or provisioning delays." ]
     else if bool_decide (latency_sensitivity constraints = MEDIUM) then [
       "EC2 provides reliable performance for applications with moderate latency requirements." ]
     else []) in
  let parts := parts ++
    (if bool_decide (operational_overhead_tolerance constraints = HIGH) then [
       "EC2 is a good choice when your team has strong infrastructure expertise and wants "
       +:+ "maximum control over the runtime environment." ]
     else if bool_decide (operational_overhead_tolerance constraints = LOW) then [
       "This may be a limitation if your team prefers hands-off infrastructure management "
       +:+ "or lacks expertise in server administration, monitoring, and scaling configuration." ]
     else []) in
  let parts := parts ++
    (if bool_decide (time_to_market_urgency constraints = HIGH) then [
       "This may be a limitation if rapid deployment is critical, as EC2 requires more "
       +:+ "setup time and configuration compared to serverless options." ]
     else if bool_decide (time_to_market_urgency constraints = MEDIUM) then [
       "EC2 requires moderate setup time but provides long-term flexibility for evolving requirements." ]
     else []) in
  let parts := parts ++
    (if bool_decide (expected_traffic constraints = HIGH) then [
       "EC2 is a good choice when you have high, consistent traffic that can benefit from "
       +:+ "dedicated resources and cost optimization at scale." ]
     else []) in
  let parts := parts ++ [
    "The trade-off here is between maximum infrastructure control and operational complexity. "
    +:+ "EC2 provides the most flexibility but requires the highest operational investment." ] in
  join " " parts.

Definition _generate_lambda_recommendation (evaluation : ServiceEvaluation)
    (constraints : UserConstraints) : string :=
  let parts : list string := [] in
  let scores := constraint_scores evaluation in
  let parts := parts ++
    (if bool_decide (operational_overhead_tolerance constraints = LOW) then [
       "Lambda is a good choice when you want zero infrastructure management and can "
       +:+ "focus purely on business logic without server concerns." ]
     else if bool_decide (operational_overhead_tolerance constraints = MEDIUM) then [
       "Lambda is a good choice when you prefer minimal operational overhead while "
       +:+ "maintaining some flexibility in your architecture." ]
     else []) in
  let parts := parts ++
    (if bool_decide (time_to_market_urgency constraints = HIGH) then [
       "This is a good choice when rapid prototyping and deployment are priorities, "
       +:+ "allowing immediate focus on application development." ]
     else if bool_decide (time_to_market_urgency constraints = MEDIUM) then [
       "Lambda enables faster development cycles compared to traditional infrastructure approaches." ]
     else []) in
  let parts := parts ++
    (if bool_decide (expected_traffic constraints = LOW) then [
       "Lambda is a good choice when traffic is low or highly variable, as you pay "
       +:+ "only for actual execution time with automatic scaling from zero." ]
     else if bool_decide (expected_traffic constraints = MEDIUM) then [
       "Lambda handles moderate traffic well with automatic scaling, though costs should be monitored." ]
     else if bool_decide (expected_traffic constraints = HIGH) then [
       "Lambda can handle high traffic but cost implications should be carefully evaluated." ]
     else []) in
  let parts := parts ++
    (if bool_decide (latency_sensitivity constraints = HIGH) then [
       "This may be a limitation if consistent low latency is critical, as Lambda "
       +:+ "cold starts can introduce 100-800ms delays for new execution environments." ]
     else if bool_decide (latency_sensitivity constraints = MEDIUM) then [
       "Lambda's occasional cold starts may be acceptable for applications with moderate latency requirements." ]
     else []) in
  let parts := parts ++
    (if bool_decide (budget_sensitivity constraints = HIGH)
        && bool_decide (expected_traffic constraints = HIGH) then [
       "This may be a limitation if you have sustained high traffic with tight budget "
       +:+ "constraints, as Lambda costs can become significant at scale." ]
     else if bool_decide (budget_sensitivity constraints = HIGH) then [
       "Lambda can be cost-effective for variable workloads but requires monitoring to avoid unexpected costs." ]
     else []) in
  let parts := parts ++ [
    "The trade-off here is between operational simplicity and performance predictability. "
    +:+ "Lambda eliminates infrastructure concerns but introduces cold start latency and "
    +:+ "potential cost scaling challenges." ] in
  join " " parts.

Definition _generate_fargate_recommendation (evaluation : ServiceEvaluation)
    (constraints : UserConstraints) : string :=
  let parts : list string := [] in
  let scores := constraint_scores evaluation in
  let parts := parts ++ [
    "ECS Fargate is a good choice when you want container benefits without managing "
    +:+ "Kubernetes clusters or EC2 instances, providing a middle ground between control and convenience." ] in
  let parts := parts ++
    (if bool_decide (scalability_requirement constraints = HIGH) then [
       "This is a good choice when you need automatic container scaling without the "
       +:+ "complexity of cluster management or the limitations of Lambda's execution model." ]
     else []) in
  let parts := parts ++
    (if bool_decide (operational_overhead_tolerance constraints = MEDIUM)
        && bool_decide (time_to_market_urgency constraints = MEDIUM) then [
       "Fargate is a good choice when you want more control than Lambda but less "
       +:+ "operational overhead than EC2, especially for containerized microservices." ]
     else []) in
  let parts := parts ++
    (if bool_decide (budget_sensitivity constraints = HIGH) then [
       "This may be a limitation if cost optimization is critical, as Fargate has "
       +:+ "higher per-unit costs than EC2 and doesn't support spot instance pricing." ]
     else []) in
  let parts := parts ++
    (if bool_decide (operational_overhead_tolerance constraints = HIGH) then [
       "This may be a limitation if you want maximum infrastructure control or need "
       +:+ "custom OS configurations that aren't available in the managed container environment." ]
     else []) in
  let parts := parts ++ [
    "The trade-off here is between container convenience and cost efficiency. "
    +:+ "Fargate simplifies container orchestration but at a premium compared to "
    +:+ "self-managed EC2 instances." ] in
  join " " parts.

(** The body of the loop of [generate_contextual_recommendations] for one
    item of [evaluations.items()]. *)
Definition recommend_item (constraints : UserConstraints)
    (service_key : string) (evaluation : ServiceEvaluation)
    (recommendations : gmap string string) : gmap string string :=
  if bool_decide (service_key = service_value EC2) then
    <[service_key := _generate_ec2_recommendation evaluation constraints]> recommendations
  else if bool_decide (service_key = service_value LAMBDA) then
    <[service_key := _generate_lambda_recommendation evaluation constraints]> recommendations
  else if bool_decide (service_key = service_value ECS_FARGATE) then
    <[service_key := _generate_fargate_recommendation evaluation constraints]> recommendations
  else recommendations.

Definition generate_contextual_recommendations
    (evaluations : gmap string ServiceEvaluation) (constraints : UserConstraints)
    : gmap string string :=
  map_fold (recommend_item constraints) ∅ evaluations.

Definition _summarize_edge_cases (edge_case_warnings : list string) : string :=
  match edge_case_warnings with
  | [] => "No significant edge cases detected with the current constraint combination."
  | _ => join " " ("Edge cases identified: " :: edge_case_warnings)
  end.

Definition _summarize_conflicts (conflicting_constraints : list string) : string :=
  match conflicting_constraints with
  | [] => "No major constraint conflicts detected."
  | _ =>
      let summary :=
        "Conflicting constraints detected: " +:+ join ", " conflicting_constraints +:+ ". " in
      summary +:+ "The trade-off here is between competing priorities that may require compromise or careful architecture decisions."
  end.

Definition generate_trade_off_explanations (analysis : TradeOffAnalysis)
    : gmap string string :=
  {[ "cost_vs_control" := cost_vs_control analysis;
     "latency_vs_ops_complexity" := latency_vs_ops_complexity analysis;
     "edge_case_summary" := _summarize_edge_cases (edge_case_warnings analysis);
     "conflict_summary" := _summarize_conflicts (conflicting_constraints analysis) ]}.

Definition validate_required_phrases (text : string) : bool :=
  let text_lower := lower text in
  existsb (λ phrase, str_in (lower phrase) text_lower) required_phrases.

(** The inner loop of [get_phrase_usage_stats] for one recommendation.
    Every phrase is a key of [stats] from the start, so [stats[phrase] += 1]
    finds its entry. *)
Definition count_phrases (recommendation : string) (stats : gmap string nat)
    : gmap string nat :=
  let recommendation_lower := lower recommendation in
  foldl (λ stats phrase,
           if str_in (lower phrase) recommendation_lower
           then alter S phrase stats else stats)
    stats required_phrases.

Definition get_phrase_usage_stats (recommendations : gmap string string)
    : gmap string nat :=
  let stats : gmap string nat :=
    list_to_map ((λ phrase, (phrase, 0%nat)) <$> required_phrases) in
  foldl (λ stats item, count_phrases item.2 stats)
    stats (map_to_list recommendations).

(** [ExplanationGenerator()] *)
Definition new : ExplanationGeneratorInterface :=
  Build_ExplanationGeneratorInterface
    (λ evaluations constraints,
       Ok (generate_contextual_recommendations evaluations constraints))
    (λ analysis, Ok (generate_trade_off_explanations analysis)).

End ExplanationGenerator.

(** ** comparison_engine.py *)

Module ComparisonEngine.

(** [try: body  except Exception as e: handler e].  Every class modelled
    here derives from [Exception]. *)
Definition try_except_Exception {A} (body : result A) (handler : exn → result A)
    : result A :=
  match body with
  | Ok a => Ok a
  | Raise e => if isinstance e Exception then handler e else Raise e
  end.

(** The exception the handler of [compare_services] raises:
    [RuntimeError(f"Comparison engine failed: {str(e)}") from e]. *)
Definition comparison_failed (e : exn) : exn :=
  Exn RuntimeError ("Comparison engine failed: " +:+ exn_str e) (Some e).

Definition _identify_edge_case_warnings (constraints : UserConstraints)
    (evaluations : gmap string ServiceEvaluation) : list string :=
  let warnings : list string := [] in
  let warnings := warnings ++
    (if String.eqb (level_value (budget_sensitivity constraints)) "High"
        && String.eqb (level_value (scalability_requirement constraints)) "High" then [
       "Edge case detected: High budget sensitivity with high scalability requirements "
       +:+ "creates inherent tension. The trade-off here is between cost control and "
       +:+ "scaling capabilities." ]
     else []) in
  let warnings := warnings ++
    (if String.eqb (level_value (latency_sensitivity constraints)) "High"
        && String.eqb (level_value (expected_traffic constraints)) "High" then [
       "Performance consideration: High latency sensitivity with high traffic "
       +:+ "requires careful service selection. This may be a limitation if cold starts "
       +:+ "or provisioning delays are not acceptable." ]
     else []) in
  let warnings := warnings ++
    (if String.eqb (level_value (time_to_market_urgency constraints)) "High"
        && String.eqb (level_value (operational_overhead_tolerance constraints)) "Low" then [
       "Constraint alignment: Fast time-to-market with low operational tolerance "
       +:+ "suggests serverless solutions. This is a good choice when rapid deployment "
       +:+ "is prioritized over infrastructure control." ]
     else []) in
  let warnings := warnings ++
    (if String.eqb (level_value (budget_sensitivity constraints)) "High"
        && String.eqb (level_value (latency_sensitivity constraints)) "High" then [
       "Trade-off consideration: High budget sensitivity with high latency sensitivity "
       +:+ "may require careful optimization. The trade-off here is between cost efficiency "
       +:+ "and performance guarantees." ]
     else []) in
  warnings.

Definition winner_phrases : list string :=
  [ "best choice"; "optimal"; "winner"; "perfect solution" ].

(** The last loop of [_validate_neutrality]: raise at the first
    recommendation, and in it the first phrase, that matches. *)
Fixpoint check_recommendations (items : list (string * string)) : result unit :=
  match items with
  | [] => Ok ()
  | (service, recommendation) :: rest =>
      let recommendation_lower := lower recommendation in
      match find (λ phrase, str_in phrase recommendation_lower) winner_phrases with
      | Some phrase =>
          raise ValueError
            ("Winner language detected in " +:+ service +:+ " recommendation: " +:+ phrase)
      | None => check_recommendations rest
      end
  end.

Section WithComponents.
Variable constraint_evaluator : ConstraintEvaluatorInterface.
Variable trade_off_analyzer : TradeOffAnalyzerInterface.
Variable explanation_generator : ExplanationGeneratorInterface.

Definition _validate_neutrality (result : ComparisonResult) : py unit :=
  no_winner ← validate_no_winner_declaration constraint_evaluator (evaluations result);
  if negb no_winner then
    raise ValueError "Neutrality violation: A service was declared as winner"
  else
  let expected_services := 3%nat in
  if negb (size (evaluations result) =? expected_services)%nat then
    raise ValueError
      ("Expected " +:+ pretty expected_services +:+ " services, got "
       +:+ pretty (size (evaluations result)))
  else
  if negb (size (contextual_recommendations result) =? expected_services)%nat then
    raise ValueError "Not all services have contextual recommendations"
  else
  check_recommendations (map_to_list (contextual_recommendations result)).

Definition compare_services (constraints : UserConstraints)
    : py ComparisonResult :=
  try_except_Exception
    (evaluations ← evaluate_services constraint_evaluator constraints;
     trade_off_analysis ← analyze_trade_offs trade_off_analyzer evaluations constraints;
     contextual_recommendations ←
       generate_contextual_recommendations explanation_generator evaluations constraints;
     let edge_case_warnings := _identify_edge_case_warnings constraints evaluations in
     let result :=
       {| evaluations := evaluations;
          trade_off_analysis := trade_off_analysis;
          contextual_recommendations := contextual_recommendations;
          result_edge_case_warnings := edge_case_warnings |} in
     _ ← _validate_neutrality result;
     Ok result)
    (λ e, Raise (comparison_failed e)).

Definition validate_constraint_handling (constraints : UserConstraints) : bool :=
  match compare_services constraints with
  | Ok result =>
      (size (evaluations result) =? 3)%nat
      && (size (contextual_recommendations result) =? 3)%nat
  | Raise _ => false
  end.
End WithComponents.

End ComparisonEngine.

(** ** ui_controller.py: the checks at the boundary

    The two functions between the form and the engine.  [repr] is Python's
    built-in of that name on strings: it writes the key in a KeyError and
    the value in the ValueError of an enumeration. *)

Module UIController.

Definition constraint_options : list string := [ "Low"; "Medium"; "High" ].

Definition required_constraints : list string :=
  [ "budget_sensitivity"; "expected_traffic"; "scalability_requirement";
    "latency_sensitivity"; "operational_overhead_tolerance";
    "time_to_market_urgency" ].

Definition validate_constraint_inputs (constraints : gmap string string) : bool :=
  forallb (λ constraint,
    match constraints !! constraint with
    | None => false
    | Some value => bool_decide (value ∈ constraint_options)
    end) required_constraints.

Section WithRepr.
Variable repr : string → string.

(** [constraints[key]] *)
Definition getitem (constraints : gmap string string) (key : string)
    : result string :=
  match constraints !! key with
  | Some value => Ok value
  | None => raise KeyError (repr key)
  end.

(** [ConstraintLevel(value)]: the member with that value. *)
Definition ConstraintLevel_of_value (value : string) : result ConstraintLevel :=
  if String.eqb value (level_value LOW) then Ok LOW
  else if String.eqb value (level_value MEDIUM) then Ok MEDIUM
  else if String.eqb value (level_value HIGH) then Ok HIGH
  else raise ValueError (repr value +:+ " is not a valid ConstraintLevel").

Definition create_user_constraints_from_input (constraints : gmap string string)
    : result UserConstraints :=
  budget ← getitem constraints "budget_sensitivity" ≫= ConstraintLevel_of_value;
  traffic ← getitem constraints "expected_traffic" ≫= ConstraintLevel_of_value;
  scalability ←
    getitem constraints "scalability_requirement" ≫= ConstraintLevel_of_value;
  latency ← getitem constraints "latency_sensitivity" ≫= ConstraintLevel_of_value;
  overhead ←
    getitem constraints "operational_overhead_tolerance" ≫= ConstraintLevel_of_value;
  urgency ←
    getitem constraints "time_to_market_urgency" ≫= ConstraintLevel_of_value;
  Ok {| budget_sensitivity := budget;
        expected_traffic := traffic;
        scalability_requirement := scalability;
        latency_sensitivity := latency;
        operational_overhead_tolerance := overhead;
        time_to_market_urgency := urgency |}.
End WithRepr.

End UIController.

(** ** app.py: the components as [initialize_components] wires them *)

Definition service_repo : ServiceRepositoryInterface := ServiceRepository.new.
Definition scoring_system : ScoringSystemInterface := ScoringSystem.new.
Definition constraint_evaluator : ConstraintEvaluatorInterface :=
  ConstraintEvaluator.new scoring_system service_repo.
Definition trade_off_analyzer : TradeOffAnalyzerInterface := TradeOffAnalyzer.new.
Definition explanation_generator : ExplanationGeneratorInterface :=
  ExplanationGenerator.new.

Definition compare_services (constraints : UserConstraints)
    : result ComparisonResult :=
  ComparisonEngine.compare_services
    constraint_evaluator trade_off_analyzer explanation_generator constraints.

(** ** Quantifying over the constraint sets

    There are 3^6 = 729 values of [UserConstraints]; a boolean property
    that holds of each of them is checked by running it on all. *)

Definition forall_levels (P : ConstraintLevel → bool) : bool :=
  P LOW && P MEDIUM && P HIGH.

Definition forall_constraints (P : UserConstraints → bool) : bool :=
  forall_levels (λ budget, forall_levels (λ traffic,
  forall_levels (λ scalability, forall_levels (λ latency,
  forall_levels (λ overhead, forall_levels (λ urgency,
    P {| budget_sensitivity := budget;
         expected_traffic := traffic;
         scalability_requirement := scalability;
         latency_sensitivity := latency;
         operational_overhead_tolerance := overhead;
         time_to_market_urgency := urgency |})))))).

(** [returns r Q]: the call [r] returns, and its value satisfies [Q]. *)
Definition returns {A} (r : result A) (Q : A → Prop) : Prop :=
  match r with
  | Ok a => Q a
  | Raise _ => False
  end.

Global Instance returns_dec {A} (r : result A) (Q : A → Prop)
  `{∀ a, Decision (Q a)} : Decision (returns r Q).
Proof. destruct r; simpl; apply _. Defined.

(** ** The properties of a comparison result the specification names *)

(** The forbidden winner terms of the specification. *)
Definition forbidden_terms : list string :=
  [ "best choice"; "best"; "winner"; "optimal"; "perfect";
    "perfect solution"; "ideal choice" ].

(** [scan terms text]: some term of [terms] occurs in [text], scanning
    case-insensitively. *)
Definition scan (terms : list string) (text : string) : bool :=
  let text_lower := lower text in
  existsb (λ term, str_in term text_lower) terms.

(** [text] holds none of [terms]. *)
Definition free_of (terms : list string) (text : string) : Prop :=
  scan terms text = false.

(** The texts of an evaluation, one by one. *)
Definition evaluation_texts (evaluation : ServiceEvaluation) : list string :=
  service_name evaluation
  :: strengths evaluation ++ limitations evaluation ++ best_use_cases evaluation.

Definition service_identifiers : gset string :=
  {[ service_value EC2; service_value LAMBDA; service_value ECS_FARGATE ]}.

(** An evaluation holds no forbidden term: neither its text joined as the
    engine scans it, nor any of its texts taken alone. *)
Definition no_winner_evaluation (evaluation : ServiceEvaluation) : Prop :=
  free_of forbidden_terms (ConstraintEvaluator.all_text evaluation)
  ∧ Forall (free_of forbidden_terms) (evaluation_texts evaluation).

(** The scores of an evaluation are six entries from 1 to 5. *)
Definition scores_complete (evaluation : ServiceEvaluation) : Prop :=
  size (constraint_scores evaluation) = 6%nat
  ∧ map_Forall (λ _ score, 1 ≤ score ≤ 5) (constraint_scores evaluation).

Global Instance free_of_dec terms text : Decision (free_of terms text).
Proof. unfold free_of. apply _. Defined.
Global Instance no_winner_evaluation_dec evaluation :
  Decision (no_winner_evaluation evaluation).
Proof. unfold no_winner_evaluation. apply _. Defined.
Global Instance scores_complete_dec evaluation :
  Decision (scores_complete evaluation).
Proof. unfold scores_complete. apply _. Defined.

(** ** The conflict rules as the specification lists them

    Rules 1 to 4 of the specification of the detector, each a condition on
    the constraints with its label, in the order of the specification. *)

Definition is_high (level : ConstraintLevel) : bool := bool_decide (level = HIGH).

Definition rule_budget_scalability : (UserConstraints → bool) * string :=
  (λ C, is_high (budget_sensitivity C) && is_high (scalability_requirement C),
   "Budget sensitivity vs Scalability requirement").
Definition rule_budget_latency : (UserConstraints → bool) * string :=
  (λ C, is_high (budget_sensitivity C) && is_high (latency_sensitivity C),
   "Budget sensitivity vs Latency sensitivity").
Definition rule_urgency_overhead : (UserConstraints → bool) * string :=
  (λ C, is_high (time_to_market_urgency C)
        && is_high (operational_overhead_tolerance C),
   "Time-to-market urgency vs Operational overhead tolerance").
Definition rule_traffic_budget : (UserConstraints → bool) * string :=
  (λ C, is_high (expected_traffic C) && is_high (budget_sensitivity C),
   "Expected traffic vs Budget sensitivity").

(** The labels of the rules of [rules] that hold of [C], in the order of
    [rules]. *)
Definition labels_of (rules : list ((UserConstraints → bool) * string))
    (C : UserConstraints) : list string :=
  (filter (λ rule, Is_true (rule.1 C)) rules).*2.

(** The order of the specification: rule 1, rule 2, rule 3, rule 4. *)
Definition spec_conflicts : UserConstraints → list string :=
  labels_of [ rule_budget_scalability; rule_budget_latency;
              rule_urgency_overhead; rule_traffic_budget ].

(** The order of [identify_constraint_conflicts]: rule 2 comes first. *)
Definition code_conflicts : UserConstraints → list string :=
  labels_of [ rule_budget_latency; rule_budget_scalability;
              rule_urgency_overhead; rule_traffic_budget ].

(** ** When the neutrality check fails inside [compare_services]

    The first five steps return and [_validate_neutrality] raises [e] on
    the result they assemble. *)

Definition neutrality_check_fails
    (evaluator : ConstraintEvaluatorInterface)
    (analyzer : TradeOffAnalyzerInterface)
    (generator : ExplanationGeneratorInterface)
    (constraints : UserConstraints) (e : exn) : Prop :=
  ∃ evaluations analysis recommendations,
    evaluate_services evaluator constraints = Ok evaluations
    ∧ analyze_trade_offs analyzer evaluations constraints = Ok analysis
    ∧ generate_contextual_recommendations generator evaluations constraints
      = Ok recommendations
    ∧ ComparisonEngine._validate_neutrality evaluator
        {| evaluations := evaluations;
           trade_off_analysis := analysis;
           contextual_recommendations := recommendations;
           result_edge_case_warnings :=
             ComparisonEngine._identify_edge_case_warnings constraints evaluations |}
      = Raise e.

(** Two engines with a defective table each.  In the first the catalog
    entry of EC2 carries winner language, so the neutrality check fails; in
    the second the catalog lists a service the scoring table does not know,
    so the evaluation stage fails. *)

Definition boastful_services : list (string * ServiceCharacteristics.t) :=
  [ (service_value EC2,
     {| ServiceCharacteristics.name := "AWS EC2";
        ServiceCharacteristics.strengths := [ "The best performance" ];
        ServiceCharacteristics.limitations := [ "High operational overhead" ];
        ServiceCharacteristics.best_use_cases := [ "Long-running workloads" ];
        ServiceCharacteristics.cost_model := "Pay for compute time";
        ServiceCharacteristics.scaling_characteristics := "Manual or auto-scaling";
        ServiceCharacteristics.operational_overhead := "High" |}) ].

Definition unknown_services : list (string * ServiceCharacteristics.t) :=
  [ ("GCE",
     {| ServiceCharacteristics.name := "Compute Engine";
        ServiceCharacteristics.strengths := [ "Per-second billing" ];
        ServiceCharacteristics.limitations := [ "Another provider" ];
        ServiceCharacteristics.best_use_cases := [ "Batch processing jobs" ];
        ServiceCharacteristics.cost_model := "Pay for compute time";
        ServiceCharacteristics.scaling_characteristics := "Manual or auto-scaling";
        ServiceCharacteristics.operational_overhead := "High" |}) ].

Definition evaluator_over (services : list (string * ServiceCharacteristics.t))
    : ConstraintEvaluatorInterface :=
  ConstraintEvaluator.new scoring_system (ServiceRepository.over services).

Definition all_medium : UserConstraints :=
  {| budget_sensitivity := MEDIUM;
     expected_traffic := MEDIUM;
     scalability_requirement := MEDIUM;
     latency_sensitivity := MEDIUM;
     operational_overhead_tolerance := MEDIUM;
     time_to_market_urgency := MEDIUM |}.

Definition all_high : UserConstraints :=
  {| budget_sensitivity := HIGH;
     expected_traffic := HIGH;
     scalability_requirement := HIGH;
     latency_sensitivity := HIGH;
     operational_overhead_tolerance := HIGH;
     time_to_market_urgency := HIGH |}.

(** An evaluation map with a key that is no service identifier. *)
Definition stray_evaluations : gmap string ServiceEvaluation :=
  let evaluation :=
    {| service_name := "Compute Engine";
       constraint_scores := ∅;
       strengths := [];
       limitations := [];
       best_use_cases := [] |} in
  {[ "GCE" := evaluation; service_value EC2 := evaluation ]}.

(** The text the generator writes for an item of its input, if any: the
    three branches of its loop body. *)
Definition recommendation_for (C : UserConstraints) (key : string)
    (evaluation : ServiceEvaluation) : option string :=
  if bool_decide (key = service_value EC2) then
    Some (ExplanationGenerator._generate_ec2_recommendation evaluation C)
  else if bool_decide (key = service_value LAMBDA) then
    Some (ExplanationGenerator._generate_lambda_recommendation evaluation C)
  else if bool_decide (key = service_value ECS_FARGATE) then
    Some (ExplanationGenerator._generate_fargate_recommendation evaluation C)
  else None.

(** What [_ensure_evaluation_independence] asserts of two evaluations. *)
Definition independent (eval1 eval2 : ServiceEvaluation) : Prop :=
  service_name eval1 ≠ service_name eval2
  ∧ strengths eval1 ≠ strengths eval2
  ∧ limitations eval1 ≠ limitations eval2.

(** A catalog of two services that share their limitations. *)
Definition twin_services : list (string * ServiceCharacteristics.t) :=
  [ (service_value EC2,
     {| ServiceCharacteristics.name := "AWS EC2";
        ServiceCharacteristics.strengths := [ "Full control" ];
        ServiceCharacteristics.limitations := [ "Requires expertise" ];
        ServiceCharacteristics.best_use_cases := [ "Long-running workloads" ];
        ServiceCharacteristics.cost_model := "Pay for compute time";
        ServiceCharacteristics.scaling_characteristics := "Manual or auto-scaling";
        ServiceCharacteristics.operational_overhead := "High" |});
    (service_value LAMBDA,
     {| ServiceCharacteristics.name := "AWS Lambda";
        ServiceCharacteristics.strengths := [ "Zero infrastructure management" ];
        ServiceCharacteristics.limitations := [ "Requires expertise" ];
        ServiceCharacteristics.best_use_cases := [ "Scheduled tasks" ];
        ServiceCharacteristics.cost_model := "Pay per request";
        ServiceCharacteristics.scaling_characteristics := "Instant";
        ServiceCharacteristics.operational_overhead := "Very low" |}) ].

(** The scores of Lambda when every constraint is High. *)
Definition lambda_all_high_scores : gmap string Z :=
  {[ "budget_sensitivity" := 2;
     "expected_traffic" := 3;
     "scalability_requirement" := 5;
     "latency_sensitivity" := 1;
     "operational_overhead_tolerance" := 4;
     "time_to_market_urgency" := 5 ]}.

(** The entry of a scoring table for a constraint, a level and a service,
    if it has one. *)
Definition table_entry (rules : gmap string (gmap string (gmap string Z)))
    (service constraint value : string) : option Z :=
  by_level ← rules !! constraint;
  by_service ← by_level !! value;
  by_service !! service.

(** * Properties *)

(** Decide a closed proposition by running its decision procedure. *)
Ltac by_evaluation := apply (bool_decide_unpack _); vm_compute; exact I.

(** ** Strings *)

Lemma str_in_prefix needle hay :
  String.prefix needle hay = true → str_in needle hay = true.
Proof. intros H. destruct hay; simpl in *; rewrite H; reflexivity. Qed.

Lemma str_in_app_r needle s t :
  str_in needle t = true → str_in needle (s +:+ t) = true.
Proof.
  intros H. induction s as [|c s IH]; simpl; [exact H|].
  rewrite IH. apply orb_true_r.
Qed.

Lemma prefix_app needle s t :
  String.prefix needle s = true → String.prefix needle (s +:+ t) = true.
Proof.
  revert s. induction needle as [|a needle IH]; intros s H.
  - by destruct (s +:+ t).
  - destruct s as [|b s]; simpl in *; [discriminate|].
    destruct (Ascii.ascii_dec a b); [auto | discriminate].
Qed.

(** The last part of a joined text starts wherever its own prefix does. *)
Lemma str_in_join_last sep needle parts last :
  String.prefix needle last = true →
  str_in needle (join sep (parts ++ [last])) = true.
Proof.
  intros H. unfold join. induction parts as [|p parts IH]; simpl.
  - by apply str_in_prefix.
  - destruct (parts ++ [last]) as [|q rest] eqn:E.
    + by destruct parts.
    + apply str_in_app_r, str_in_app_r, IH.
Qed.

Lemma join_last_nonempty sep parts last :
  last ≠ "" → join sep (parts ++ [last]) ≠ "".
Proof.
  intros H. unfold join. induction parts as [|p parts IH]; simpl; [exact H|].
  destruct (parts ++ [last]) as [|q rest] eqn:E.
  - by destruct parts.
  - destruct p; simpl; [|discriminate].
    destruct sep; simpl; [exact IH | discriminate].
Qed.

Lemma scan_false terms text :
  scan terms text = false ↔
  ∀ term, term ∈ terms → str_in term (lower text) = false.
Proof.
  unfold scan. induction terms as [|t terms IH]; simpl.
  - split; [intros _ term H; inversion H | reflexivity].
  - rewrite orb_false_iff, IH. split.
    + intros [Ht Hrest] term Hin. inversion Hin; subst; auto.
    + intros H. split; [apply H; left | intros term Hin; apply H; by right].
Qed.

(** ** The scoring table *)

Section ScoringTable.
Import ScoringSystem.

Lemma row_lookup_None a b c service :
  service ∉ expected_services → row a b c !! service = None.
Proof.
  unfold expected_services, row. intros H.
  rewrite !lookup_insert_ne, lookup_singleton_ne by (intros <-; apply H; set_solver).
  reflexivity.
Qed.

Lemma levels_lookup_None a b c value :
  value ∉ expected_levels → levels a b c !! value = None.
Proof.
  unfold expected_levels, levels. intros H.
  rewrite !lookup_insert_ne, lookup_singleton_ne by (intros <-; apply H; set_solver).
  reflexivity.
Qed.

Lemma rules_lookup_None constraint :
  constraint ∉ expected_constraints →
  _initialize_scoring_rules !! constraint = None.
Proof.
  unfold expected_constraints, _initialize_scoring_rules. intros H.
  rewrite !lookup_insert_ne, lookup_singleton_ne by (intros <-; apply H; set_solver).
  reflexivity.
Qed.

Lemma rules_lookup_Some constraint :
  constraint ∈ expected_constraints →
  ∃ r1 r2 r3 r4 r5 r6 r7 r8 r9,
    _initialize_scoring_rules !! constraint
    = Some (levels (row r1 r2 r3) (row r4 r5 r6) (row r7 r8 r9)).
Proof.
  unfold expected_constraints. intros H.
  repeat (apply elem_of_cons in H as [->|H]);
    [by repeat eexists .. | by apply elem_of_nil in H].
Qed.

Lemma levels_lookup_Some a b c value :
  value ∈ expected_levels →
  ∃ by_service, levels a b c !! value = Some by_service
                ∧ (by_service = a ∨ by_service = b ∨ by_service = c).
Proof.
  unfold expected_levels. intros H.
  repeat (apply elem_of_cons in H as [->|H]);
    [eexists; split; [reflexivity | tauto] .. | by apply elem_of_nil in H].
Qed.

(** Inside the closed sets the lookup succeeds and the range check passes. *)
Lemma score_in_range service constraint value :
  service ∈ expected_services →
  constraint ∈ expected_constraints →
  value ∈ expected_levels →
  ∃ score,
    score_service_against_constraint _initialize_scoring_rules
      service constraint value = Ok score
    ∧ 1 ≤ score ≤ 5.
Proof.
  unfold expected_services, expected_constraints, expected_levels.
  intros Hs Hc Hv.
  repeat (apply elem_of_cons in Hs as [->|Hs]); [| | | by apply elem_of_nil in Hs];
  (repeat (apply elem_of_cons in Hc as [->|Hc]); [| | | | | | by apply elem_of_nil in Hc]);
  (repeat (apply elem_of_cons in Hv as [->|Hv]); [| | | by apply elem_of_nil in Hv]);
  (eexists; split; [vm_compute; reflexivity | lia]).
Qed.

(** Outside them the first failing guard raises a [ValueError]. *)
Lemma score_unknown service constraint value :
  ¬ (service ∈ expected_services
     ∧ constraint ∈ expected_constraints
     ∧ value ∈ expected_levels) →
  ∃ msg,
    score_service_against_constraint _initialize_scoring_rules
      service constraint value = Raise (Exn ValueError msg None).
Proof.
  intros Hout. unfold score_service_against_constraint.
  destruct (decide (constraint ∈ expected_constraints)) as [Hc|Hc];
    [| rewrite (rules_lookup_None _ Hc); by eexists].
  destruct (rules_lookup_Some _ Hc) as (r1&r2&r3&r4&r5&r6&r7&r8&r9&->).
  destruct (decide (value ∈ expected_levels)) as [Hv|Hv];
    [| rewrite (levels_lookup_None _ _ _ _ Hv); by eexists].
  destruct (levels_lookup_Some (row r1 r2 r3) (row r4 r5 r6) (row r7 r8 r9) _ Hv)
    as (by_service & -> & Hrow).
  assert (service ∉ expected_services) as Hs by tauto.
  destruct Hrow as [->|[->| ->]]; rewrite (row_lookup_None _ _ _ _ Hs); by eexists.
Qed.

End ScoringTable.

(** The start-up self-test of the table passes: its 54 entries are
    present and in range. *)
Lemma validate_all_rules_passes :
  ScoringSystem.validate_all_rules ScoringSystem._initialize_scoring_rules = true.
Proof. vm_compute. reflexivity. Qed.

(** C9. The table gives latency_sensitivity at level High the scores 5 for
    EC2, 1 for Lambda and 3 for ECS_Fargate. *)
Theorem score_latency_high :
  score_service_against_constraint scoring_system
    "EC2" "latency_sensitivity" "High" = Ok 5
  ∧ score_service_against_constraint scoring_system
      "Lambda" "latency_sensitivity" "High" = Ok 1
  ∧ score_service_against_constraint scoring_system
      "ECS_Fargate" "latency_sensitivity" "High" = Ok 3.
Proof. repeat split; vm_compute; reflexivity. Qed.

(** C3, as the code has it.  When the three arguments lie in the closed
    sets the call returns an integer in [1,5]; when one of them lies outside
    the call raises a ValueError (not a LookupError). *)
Theorem score_contract service constraint value :
  (service ∈ ScoringSystem.expected_services
   ∧ constraint ∈ ScoringSystem.expected_constraints
   ∧ value ∈ ScoringSystem.expected_levels →
   ∃ score,
     score_service_against_constraint scoring_system service constraint value
     = Ok score
     ∧ 1 ≤ score ≤ 5)
  ∧ (¬ (service ∈ ScoringSystem.expected_services
        ∧ constraint ∈ ScoringSystem.expected_constraints
        ∧ value ∈ ScoringSystem.expected_levels) →
     ∃ msg,
       score_service_against_constraint scoring_system service constraint value
       = Raise (Exn ValueError msg None)
       ∧ isinstance (Exn ValueError msg None) ValueError = true).
Proof.
  split.
  - intros (Hs & Hc & Hv). by apply score_in_range.
  - intros Hout. destruct (score_unknown _ _ _ Hout) as [msg Hmsg].
    exists msg. split; [exact Hmsg | reflexivity].
Qed.

Lemma score_contract_witness :
  (("Lambda" ∈ ScoringSystem.expected_services
    ∧ "expected_traffic" ∈ ScoringSystem.expected_constraints
    ∧ "Low" ∈ ScoringSystem.expected_levels)
   ∧ ∃ score,
       score_service_against_constraint scoring_system
         "Lambda" "expected_traffic" "Low" = Ok score
       ∧ 1 ≤ score ≤ 5)
  ∧ (¬ ("Lambda" ∈ ScoringSystem.expected_services
        ∧ "expected_traffic" ∈ ScoringSystem.expected_constraints
        ∧ "Extreme" ∈ ScoringSystem.expected_levels)
     ∧ ∃ msg,
         score_service_against_constraint scoring_system
           "Lambda" "expected_traffic" "Extreme" = Raise (Exn ValueError msg None)
         ∧ isinstance (Exn ValueError msg None) ValueError = true).
Proof.
  assert ("Lambda" ∈ ScoringSystem.expected_services
          ∧ "expected_traffic" ∈ ScoringSystem.expected_constraints
          ∧ "Low" ∈ ScoringSystem.expected_levels) as Hin
    by (repeat split; by_evaluation).
  assert (¬ ("Lambda" ∈ ScoringSystem.expected_services
             ∧ "expected_traffic" ∈ ScoringSystem.expected_constraints
             ∧ "Extreme" ∈ ScoringSystem.expected_levels)) as Hout
    by (intros (_ & _ & Hv); revert Hv; by_evaluation).
  split; (split; [assumption|]).
  - exact (proj1 (score_contract "Lambda" "expected_traffic" "Low") Hin).
  - exact (proj2 (score_contract "Lambda" "expected_traffic" "Extreme") Hout).
Defined.

(** C3, as stated, fails: an unknown service makes the call raise a
    ValueError, which is not an instance of LookupError. *)
Lemma score_unknown_service_not_LookupError :
  ("GCE" ∉ ScoringSystem.expected_services)
  ∧ score_service_against_constraint scoring_system
      "GCE" "latency_sensitivity" "High"
    = Raise (Exn ValueError "Unknown service: GCE" None)
  ∧ isinstance (Exn ValueError "Unknown service: GCE" None) LookupError = false.
Proof.
  split; [|split]; [by_evaluation | vm_compute; reflexivity | reflexivity].
Qed.

(** ** The constraint sets *)

Lemma forall_levels_spec P :
  forall_levels P = true → ∀ level, P level = true.
Proof.
  unfold forall_levels. intros H level.
  apply andb_true_iff in H as [H Hhigh]. apply andb_true_iff in H as [Hlow Hmedium].
  by destruct level.
Qed.

Lemma forall_constraints_spec P :
  forall_constraints P = true → ∀ C, P C = true.
Proof.
  intros H [budget traffic scalability latency overhead urgency].
  unfold forall_constraints in H.
  pose proof (forall_levels_spec _ H budget) as H1. cbv beta in H1.
  pose proof (forall_levels_spec _ H1 traffic) as H2. cbv beta in H2.
  pose proof (forall_levels_spec _ H2 scalability) as H3. cbv beta in H3.
  pose proof (forall_levels_spec _ H3 latency) as H4. cbv beta in H4.
  pose proof (forall_levels_spec _ H4 overhead) as H5. cbv beta in H5.
  exact (forall_levels_spec _ H5 urgency).
Qed.

(** A decidable property that passes on the 729 constraint sets holds of
    every constraint set. *)
Lemma all_constraints (P : UserConstraints → Prop) `{∀ C, Decision (P C)} :
  forall_constraints (λ C, bool_decide (P C)) = true → ∀ C, P C.
Proof.
  intros Hall C. apply (bool_decide_unpack _), Is_true_true.
  exact (forall_constraints_spec _ Hall C).
Qed.

(** Prove a decidable property of every constraint set by running it on
    the 729 of them. *)
Ltac check_all_constraints :=
  match goal with
  | |- ∀ C : UserConstraints, @?P C =>
      apply (all_constraints P); vm_cast_no_check (eq_refl true)
  end.

(** ** The trade-off detector *)

(** C4, as the code has it.  The list of conflicts is a function of the
    constraints; the label of each rule is in it exactly when the rule's
    condition holds; and the labels come in the order rule 2 (budget and
    latency), rule 1 (budget and scalability), rule 3, rule 4. *)
Theorem identify_constraint_conflicts_order C :
  TradeOffAnalyzer.identify_constraint_conflicts C = code_conflicts C
  ∧ Forall (λ rule : (UserConstraints → bool) * string,
        rule.2 ∈ TradeOffAnalyzer.identify_constraint_conflicts C
        ↔ rule.1 C = true)
      [ rule_budget_scalability; rule_budget_latency;
        rule_urgency_overhead; rule_traffic_budget ].
Proof.
  revert C. check_all_constraints.
Qed.

(** C4, as stated, fails: with every constraint High the code lists the
    budget/latency conflict before the budget/scalability conflict. *)
Lemma identify_constraint_conflicts_not_spec_order :
  TradeOffAnalyzer.identify_constraint_conflicts all_high
  = [ "Budget sensitivity vs Latency sensitivity";
      "Budget sensitivity vs Scalability requirement";
      "Time-to-market urgency vs Operational overhead tolerance";
      "Expected traffic vs Budget sensitivity" ]
  ∧ spec_conflicts all_high
    = [ "Budget sensitivity vs Scalability requirement";
        "Budget sensitivity vs Latency sensitivity";
        "Time-to-market urgency vs Operational overhead tolerance";
        "Expected traffic vs Budget sensitivity" ]
  ∧ TradeOffAnalyzer.identify_constraint_conflicts all_high
    ≠ spec_conflicts all_high.
Proof. repeat split. discriminate. Qed.

(** C7. The analysis does not depend on the evaluations: for one set of
    constraints any two evaluation maps give the same analysis. *)
Theorem analyze_trade_offs_ignores_evaluations
    (E1 E2 : gmap string ServiceEvaluation) (C : UserConstraints) :
  TradeOffAnalyzer.analyze_trade_offs E1 C = TradeOffAnalyzer.analyze_trade_offs E2 C
  ∧ analyze_trade_offs trade_off_analyzer E1 C
    = analyze_trade_offs trade_off_analyzer E2 C.
Proof. split; reflexivity. Qed.

(** ** The evaluator *)

Section Evaluator.
Variable scoring : ScoringSystemInterface.
Variable repository : ServiceRepositoryInterface.

(** Every entry the loop leaves in the map is what the single-service call
    returns for its key, whatever the wiring. *)
Lemma evaluate_services_loop_entries services C acc evaluations :
  (∀ service evaluation, acc !! service = Some evaluation →
     ConstraintEvaluator.evaluate_single_service scoring repository service C
     = Ok evaluation) →
  ConstraintEvaluator.evaluate_services_loop scoring repository services C acc
  = Ok evaluations →
  ∀ service evaluation, evaluations !! service = Some evaluation →
    ConstraintEvaluator.evaluate_single_service scoring repository service C
    = Ok evaluation.
Proof.
  revert acc. induction services as [|s services IH]; intros acc Hacc Hloop.
  - injection Hloop as <-. exact Hacc.
  - simpl in Hloop.
    destruct (ConstraintEvaluator.evaluate_single_service scoring repository s C)
      as [e|err] eqn:He; simpl in Hloop; [|discriminate].
    apply (IH (<[s:=e]> acc)); [|exact Hloop].
    intros service evaluation. rewrite lookup_insert. case_decide.
    + intros [= <-]. by subst.
    + apply Hacc.
Qed.

Lemma evaluate_services_entries C evaluations :
  ConstraintEvaluator.evaluate_services scoring repository C = Ok evaluations →
  ∀ service evaluation, evaluations !! service = Some evaluation →
    ConstraintEvaluator.evaluate_single_service scoring repository service C
    = Ok evaluation.
Proof.
  apply evaluate_services_loop_entries. intros service evaluation.
  by rewrite lookup_empty.
Qed.

End Evaluator.

(** With the tables of the program the batch call returns, with the three
    service identifiers as its keys. *)
Lemma evaluate_services_returns C :
  returns (evaluate_services constraint_evaluator C)
    (λ evaluations,
       dom evaluations = service_identifiers
       ∧ map_Forall (λ _ evaluation, scores_complete evaluation) evaluations).
Proof. revert C. check_all_constraints. Qed.

(** C6. For every constraint set and each of the three services, the
    single-service call returns the evaluation that the batch call stores
    under that service's identifier. *)
Theorem evaluate_single_service_agrees (C : UserConstraints) (S : ServiceType) :
  ∃ evaluation evaluations,
    evaluate_single_service constraint_evaluator (service_value S) C = Ok evaluation
    ∧ evaluate_services constraint_evaluator C = Ok evaluations
    ∧ evaluations !! service_value S = Some evaluation.
Proof.
  pose proof (evaluate_services_returns C) as Hret.
  destruct (evaluate_services constraint_evaluator C) as [evaluations|] eqn:Hall;
    [simpl in Hret | done].
  assert (is_Some (evaluations !! service_value S)) as [evaluation Hlookup].
  { apply elem_of_dom. rewrite (proj1 Hret). unfold service_identifiers.
    destruct S; set_solver. }
  exists evaluation, evaluations. split; [|done].
  exact (evaluate_services_entries _ _ C evaluations Hall _ _ Hlookup).
Qed.

(** ** The explanation generator *)

(** What the loop leaves under each key. *)
Lemma generate_contextual_recommendations_lookup
    (E : gmap string ServiceEvaluation) C (key : string) :
  ExplanationGenerator.generate_contextual_recommendations E C !! key
  = E !! key ≫= recommendation_for C key.
Proof.
  unfold ExplanationGenerator.generate_contextual_recommendations.
  revert key.
  apply (map_fold_weak_ind
    (λ (recommendations : gmap string string) (E : gmap string ServiceEvaluation),
       ∀ key, recommendations !! key = E !! key ≫= recommendation_for C key)).
  - intros key. by rewrite !lookup_empty.
  - intros service evaluation m recommendations Hfresh IH key.
    unfold ExplanationGenerator.recommend_item.
    destruct (decide (service = key)) as [->|Hne].
    + rewrite (lookup_insert_eq m). simpl. unfold recommendation_for.
      repeat case_bool_decide; rewrite ?lookup_insert_eq; try done.
      by rewrite IH, Hfresh.
    + rewrite (lookup_insert_ne m) by done. rewrite <- IH.
      repeat case_bool_decide; by rewrite ?lookup_insert_ne.
Qed.

(** A key that is no service identifier gets no recommendation. *)
Lemma stray_key_left_out :
  dom stray_evaluations = {[ "GCE"; "EC2" ]}
  ∧ dom (ExplanationGenerator.generate_contextual_recommendations
           stray_evaluations all_medium) = {[ "EC2" ]}.
Proof. split; by_evaluation. Qed.

(** The generator returns, with the keys of its input that are service
    identifiers. *)
Lemma generated_recommendations_keys
    (E : gmap string ServiceEvaluation) (C : UserConstraints) :
  ∃ recommendations,
    generate_contextual_recommendations explanation_generator E C
    = Ok recommendations
    ∧ dom recommendations = dom E ∩ service_identifiers.
Proof.
  eexists. split; [reflexivity|].
  apply set_eq. intros key.
  rewrite elem_of_intersection, !elem_of_dom.
  rewrite generate_contextual_recommendations_lookup.
  unfold service_identifiers. rewrite !elem_of_union, !elem_of_singleton.
  destruct (E !! key) as [evaluation|]; simpl.
  - unfold recommendation_for.
    repeat case_bool_decide; split; intros Hsome.
    all: try (split; [by eexists | tauto]).
    all: try by eexists.
    exfalso. simpl in *. tauto.
  - split; [by intros [? ?] | by intros [[? ?] _]].
Qed.

(** C10. The generator never raises, and its result has an entry exactly
    for the keys of the input that are one of the three service
    identifiers: every other key of the input is left out. *)
Theorem generate_contextual_recommendations_keys
    (E : gmap string ServiceEvaluation) (C : UserConstraints) :
  ∃ recommendations,
    generate_contextual_recommendations explanation_generator E C
    = Ok recommendations
    ∧ dom recommendations = dom E ∩ service_identifiers.
Proof.
  eexists. split; [reflexivity|].
  apply set_eq. intros key.
  rewrite elem_of_intersection, !elem_of_dom.
  rewrite generate_contextual_recommendations_lookup.
  unfold service_identifiers. rewrite !elem_of_union, !elem_of_singleton.
  destruct (E !! key) as [evaluation|]; simpl.
  - unfold recommendation_for.
    repeat case_bool_decide; split; intros Hsome.
    all: try (split; [by eexists | tauto]).
    all: try by eexists.
    exfalso. simpl in *. tauto.
  - split; [by intros [? ?] | by intros [[? ?] _]].
Qed.

(** Each of the three generators closes its text with its trade-off
    sentence, which opens with a required phrase. *)
Lemma ec2_recommendation_phrase evaluation C :
  ExplanationGenerator._generate_ec2_recommendation evaluation C ≠ ""
  ∧ str_in "The trade-off here is"
      (ExplanationGenerator._generate_ec2_recommendation evaluation C) = true.
Proof.
  unfold ExplanationGenerator._generate_ec2_recommendation. cbv zeta. split.
  - by apply join_last_nonempty.
  - apply str_in_join_last. vm_compute. reflexivity.
Qed.

Lemma lambda_recommendation_phrase evaluation C :
  ExplanationGenerator._generate_lambda_recommendation evaluation C ≠ ""
  ∧ str_in "The trade-off here is"
      (ExplanationGenerator._generate_lambda_recommendation evaluation C) = true.
Proof.
  unfold ExplanationGenerator._generate_lambda_recommendation. cbv zeta. split.
  - by apply join_last_nonempty.
  - apply str_in_join_last. vm_compute. reflexivity.
Qed.

Lemma fargate_recommendation_phrase evaluation C :
  ExplanationGenerator._generate_fargate_recommendation evaluation C ≠ ""
  ∧ str_in "The trade-off here is"
      (ExplanationGenerator._generate_fargate_recommendation evaluation C) = true.
Proof.
  unfold ExplanationGenerator._generate_fargate_recommendation. cbv zeta. split.
  - by apply join_last_nonempty.
  - apply str_in_join_last. vm_compute. reflexivity.
Qed.

Lemma recommendation_for_phrase C key evaluation text :
  recommendation_for C key evaluation = Some text →
  text ≠ ""
  ∧ Exists (λ phrase, str_in phrase text = true)
      ExplanationGenerator.required_phrases.
Proof.
  unfold recommendation_for, ExplanationGenerator.required_phrases.
  repeat case_bool_decide; intros [= <-].
  - destruct (ec2_recommendation_phrase evaluation C) as [Hne Hin].
    split; [exact Hne|]. do 2 apply Exists_cons_tl. by apply Exists_cons_hd.
  - destruct (lambda_recommendation_phrase evaluation C) as [Hne Hin].
    split; [exact Hne|]. do 2 apply Exists_cons_tl. by apply Exists_cons_hd.
  - destruct (fargate_recommendation_phrase evaluation C) as [Hne Hin].
    split; [exact Hne|]. do 2 apply Exists_cons_tl. by apply Exists_cons_hd.
Qed.

Lemma size_service_identifiers : size service_identifiers = 3%nat.
Proof. vm_compute. reflexivity. Qed.

(** C8. For every constraint set, the generator run on the evaluations of
    that set returns three recommendations, and each is non-empty and holds
    one of the three required phrases in its exact casing. *)
Theorem recommendations_hold_required_phrase (C : UserConstraints) :
  ∃ evaluations recommendations,
    evaluate_services constraint_evaluator C = Ok evaluations
    ∧ generate_contextual_recommendations explanation_generator evaluations C
      = Ok recommendations
    ∧ size recommendations = 3%nat
    ∧ map_Forall (λ _ text,
          text ≠ ""
          ∧ Exists (λ phrase, str_in phrase text = true)
              ExplanationGenerator.required_phrases)
        recommendations.
Proof.
  pose proof (evaluate_services_returns C) as Hret.
  destruct (evaluate_services constraint_evaluator C) as [evaluations|] eqn:Hall;
    [simpl in Hret | done].
  destruct (generated_recommendations_keys evaluations C)
    as (recommendations & Hgen & Hdom).
  exists evaluations, recommendations.
  split; [done|]. split; [done|]. split.
  - rewrite <- size_dom, Hdom, (proj1 Hret).
    replace (service_identifiers ∩ service_identifiers) with service_identifiers
      by set_solver.
    apply size_service_identifiers.
  - injection Hgen as <-. intros key text.
    rewrite generate_contextual_recommendations_lookup.
    destruct (evaluations !! key) as [evaluation|]; simpl; [|done].
    apply recommendation_for_phrase.
Qed.

(** ** The comparison engine *)

Section Engine.
Variable evaluator : ConstraintEvaluatorInterface.
Variable analyzer : TradeOffAnalyzerInterface.
Variable generator : ExplanationGeneratorInterface.

(** Every class modelled derives from [Exception], so the handler of
    [compare_services] catches whatever its body raises. *)
Lemma isinstance_Exception e : isinstance e Exception = true.
Proof. by destruct e as [[] ? ?]. Qed.

(** A failure of the evaluation stage reaches the caller as the
    "Comparison engine failed" RuntimeError. *)
Lemma evaluation_failure_is_wrapped C e :
  evaluate_services evaluator C = Raise e →
  ComparisonEngine.compare_services evaluator analyzer generator C
  = Raise (ComparisonEngine.comparison_failed e).
Proof.
  intros H. unfold ComparisonEngine.compare_services. rewrite H. simpl.
  by rewrite isinstance_Exception.
Qed.


(** C5, as the code has it.  When the neutrality check fails, the caller
    receives the same "Comparison engine failed" RuntimeError that wraps the
    failure of any other stage; the exception of the check is its cause. *)
Theorem neutrality_failure_is_wrapped C e :
  neutrality_check_fails evaluator analyzer generator C e →
  ComparisonEngine.compare_services evaluator analyzer generator C
  = Raise (ComparisonEngine.comparison_failed e)
  ∧ exn_class (ComparisonEngine.comparison_failed e) = RuntimeError
  ∧ exn_cause (ComparisonEngine.comparison_failed e) = Some e.
Proof.
  intros (evaluations & analysis & recommendations & Hev & Han & Hrec & Hval).
  repeat split.
  unfold ComparisonEngine.compare_services.
  rewrite Hev. simpl. rewrite Han. simpl. rewrite Hrec. simpl. rewrite Hval. simpl.
  by rewrite isinstance_Exception.
Qed.

End Engine.

(** With a catalog that boasts, the neutrality check fails on the first of
    its tests. *)
Lemma boastful_neutrality_check_fails :
  neutrality_check_fails
    (evaluator_over boastful_services) trade_off_analyzer explanation_generator
    all_medium
    (Exn ValueError "Neutrality violation: A service was declared as winner" None).
Proof.
  unfold neutrality_check_fails.
  eexists _, _, _. repeat split; vm_compute; reflexivity.
Defined.

Lemma neutrality_failure_is_wrapped_witness :
  neutrality_check_fails
    (evaluator_over boastful_services) trade_off_analyzer explanation_generator
    all_medium
    (Exn ValueError "Neutrality violation: A service was declared as winner" None)
  ∧ ComparisonEngine.compare_services
      (evaluator_over boastful_services) trade_off_analyzer explanation_generator
      all_medium
    = Raise (ComparisonEngine.comparison_failed
        (Exn ValueError "Neutrality violation: A service was declared as winner" None))
  ∧ exn_class (ComparisonEngine.comparison_failed
        (Exn ValueError "Neutrality violation: A service was declared as winner" None))
    = RuntimeError
  ∧ exn_cause (ComparisonEngine.comparison_failed
        (Exn ValueError "Neutrality violation: A service was declared as winner" None))
    = Some (Exn ValueError "Neutrality violation: A service was declared as winner" None).
Proof.
  split; [exact boastful_neutrality_check_fails|].
  apply (neutrality_failure_is_wrapped
           (evaluator_over boastful_services) trade_off_analyzer
           explanation_generator all_medium).
  exact boastful_neutrality_check_fails.
Defined.

(** C5, as stated, fails.  A failed neutrality check and a failed
    evaluation stage both reach the caller as a RuntimeError "Comparison
    engine failed: ..." whose cause is a ValueError: the class of the
    exception does not tell them apart, nor does the class of its cause. *)
Lemma neutrality_violation_same_kind :
  neutrality_check_fails
    (evaluator_over boastful_services) trade_off_analyzer explanation_generator
    all_medium
    (Exn ValueError "Neutrality violation: A service was declared as winner" None)
  ∧ ComparisonEngine.compare_services
    (evaluator_over boastful_services) trade_off_analyzer explanation_generator
    all_medium
  = Raise (Exn RuntimeError
      "Comparison engine failed: Neutrality violation: A service was declared as winner"
      (Some (Exn ValueError
         "Neutrality violation: A service was declared as winner" None)))
  ∧ evaluate_services (evaluator_over unknown_services) all_medium
    = Raise (Exn ValueError "Unknown service: GCE" None)
  ∧ ComparisonEngine.compare_services
      (evaluator_over unknown_services) trade_off_analyzer explanation_generator
      all_medium
    = Raise (Exn RuntimeError
        "Comparison engine failed: Unknown service: GCE"
        (Some (Exn ValueError "Unknown service: GCE" None))).
Proof.
  split; [exact boastful_neutrality_check_fails|].
  repeat split; vm_compute; reflexivity.
Qed.


(** *** Neutrality of the texts *)

(** The evaluation of a service carries the texts of its catalog entry,
    whatever the constraints, and none of the three entries holds a
    forbidden term. *)
Lemma evaluate_single_service_no_winner key C evaluation :
  evaluate_single_service constraint_evaluator key C = Ok evaluation →
  no_winner_evaluation evaluation.
Proof.
  simpl. unfold ConstraintEvaluator.evaluate_single_service. simpl.
  unfold ServiceRepository.get_service_characteristics.
  destruct (list_to_map ServiceRepository._initialize_services !! key)
    as [characteristics|] eqn:Hentry; simpl; [|discriminate].
  apply elem_of_list_to_map_2 in Hentry.
  unfold ServiceRepository._initialize_services in Hentry.
  repeat (apply elem_of_cons in Hentry as [[= -> ->]|Hentry]);
    [| | | by apply elem_of_nil in Hentry].
  all: destruct (ScoringSystem.get_all_scores _ _ C) as [scores|]; simpl;
    [intros [= <-]; by_evaluation | discriminate].
Qed.

Lemma ec2_recommendation_free evaluation C :
  free_of forbidden_terms
    (ExplanationGenerator._generate_ec2_recommendation evaluation C).
Proof.
  destruct C as [budget traffic scalability latency overhead urgency].
  destruct budget, traffic, latency, overhead, urgency; vm_compute; reflexivity.
Qed.

Lemma lambda_recommendation_free evaluation C :
  free_of forbidden_terms
    (ExplanationGenerator._generate_lambda_recommendation evaluation C).
Proof.
  destruct C as [budget traffic scalability latency overhead urgency].
  destruct budget, traffic, latency, overhead, urgency; vm_compute; reflexivity.
Qed.

Lemma fargate_recommendation_free evaluation C :
  free_of forbidden_terms
    (ExplanationGenerator._generate_fargate_recommendation evaluation C).
Proof.
  destruct C as [budget traffic scalability latency overhead urgency].
  destruct budget, scalability, overhead, urgency; vm_compute; reflexivity.
Qed.

Lemma recommendation_for_free C key evaluation text :
  recommendation_for C key evaluation = Some text →
  free_of forbidden_terms text.
Proof.
  unfold recommendation_for. repeat case_bool_decide; intros [= <-].
  - apply ec2_recommendation_free.
  - apply lambda_recommendation_free.
  - apply fargate_recommendation_free.
Qed.

Lemma recommendations_free (E : gmap string ServiceEvaluation) C :
  map_Forall (λ _ text, free_of forbidden_terms text)
    (ExplanationGenerator.generate_contextual_recommendations E C).
Proof.
  intros key text. rewrite generate_contextual_recommendations_lookup.
  destruct (E !! key) as [evaluation|]; simpl; [|done].
  apply recommendation_for_free.
Qed.

(** *** The engine's own checks

    The words and phrases the engine scans for are among the forbidden
    terms, so texts free of these pass its checks. *)

Lemma validate_no_winner_declaration_free
    (evaluations : gmap string ServiceEvaluation) :
  map_Forall (λ _ evaluation, no_winner_evaluation evaluation) evaluations →
  ConstraintEvaluator.validate_no_winner_declaration evaluations = true.
Proof.
  intros Hfree. unfold ConstraintEvaluator.validate_no_winner_declaration.
  apply forallb_forall. intros [service evaluation] Hin.
  apply list_elem_of_In, elem_of_map_to_list in Hin.
  destruct (Hfree service evaluation Hin) as [Hjoined _].
  pose proof (proj1 (scan_false _ _) Hjoined) as Hterm.
  unfold ConstraintEvaluator.winner_words. cbn [forallb snd].
  rewrite !Hterm by by_evaluation. reflexivity.
Qed.

Lemma check_recommendations_free (items : list (string * string)) :
  Forall (λ item, free_of forbidden_terms item.2) items →
  ComparisonEngine.check_recommendations items = Ok ().
Proof.
  induction 1 as [|[service recommendation] items Hfree _ IH]; [done|].
  pose proof (proj1 (scan_false _ _) Hfree) as Hterm.
  cbn [ComparisonEngine.check_recommendations ComparisonEngine.winner_phrases find].
  rewrite !Hterm by by_evaluation. exact IH.
Qed.

(** For every constraint set the six steps of [compare_services] go
    through: the evaluation returns, the result passes the neutrality
    check, and it is returned as assembled. *)
Lemma compare_services_returns C :
  ∃ evaluations,
    evaluate_services constraint_evaluator C = Ok evaluations
    ∧ compare_services C
      = Ok {| evaluations := evaluations;
              trade_off_analysis :=
                TradeOffAnalyzer.analyze_trade_offs evaluations C;
              contextual_recommendations :=
                ExplanationGenerator.generate_contextual_recommendations
                  evaluations C;
              result_edge_case_warnings :=
                ComparisonEngine._identify_edge_case_warnings C evaluations |}.
Proof.
  pose proof (evaluate_services_returns C) as Hret.
  destruct (evaluate_services constraint_evaluator C) as [evals|] eqn:Hall;
    [destruct Hret as [Hdom _] | done].
  exists evals. split; [done|].
  assert (size evals = 3%nat) as Hsize.
  { by rewrite <- size_dom, Hdom, size_service_identifiers. }
  destruct (generated_recommendations_keys evals C)
    as (recommendations & [= <-] & Hkeys).
  assert (size (ExplanationGenerator.generate_contextual_recommendations
                  evals C) = 3%nat) as Hsize'.
  { rewrite <- size_dom, Hkeys, Hdom.
    replace (service_identifiers ∩ service_identifiers) with service_identifiers
      by set_solver.
    apply size_service_identifiers. }
  unfold compare_services, ComparisonEngine.compare_services,
    ComparisonEngine.try_except_Exception.
  rewrite Hall.
  cbn [mbind result_bind analyze_trade_offs trade_off_analyzer
       TradeOffAnalyzer.new generate_contextual_recommendations
       explanation_generator ExplanationGenerator.new].
  unfold ComparisonEngine._validate_neutrality.
  cbn [mbind result_bind validate_no_winner_declaration constraint_evaluator
       ConstraintEvaluator.new evaluations contextual_recommendations].
  rewrite validate_no_winner_declaration_free.
  2:{ intros service evaluation Hlookup.
      apply (evaluate_single_service_no_winner service C).
      exact (evaluate_services_entries _ _ C evals Hall _ _ Hlookup). }
  rewrite Hsize, Hsize'.
  cbn [negb Nat.eqb].
  rewrite check_recommendations_free; [reflexivity|].
  apply Forall_forall. intros [service text] Hin.
  apply elem_of_map_to_list in Hin.
  exact (recommendations_free evals C service text Hin).
Qed.

(** C1. For every constraint set the comparison returns, and no forbidden
    winner term occurs, ignoring case, in the text of an evaluation (the name,
    strengths, limitations and use cases, joined as the engine scans them or
    taken one by one) or in one of the three recommendations. *)
Theorem compare_services_no_winner_term (C : UserConstraints) :
  ∃ result,
    compare_services C = Ok result
    ∧ map_Forall (λ _ evaluation,
          Forall (λ term,
              str_in term (lower (ConstraintEvaluator.all_text evaluation)) = false
              ∧ Forall (λ text, str_in term (lower text) = false)
                  (evaluation_texts evaluation))
            forbidden_terms)
        (evaluations result)
    ∧ size (contextual_recommendations result) = 3%nat
    ∧ map_Forall (λ _ recommendation,
          Forall (λ term, str_in term (lower recommendation) = false)
            forbidden_terms)
        (contextual_recommendations result).
Proof.
  destruct (compare_services_returns C) as (evals & Hall & Hresult).
  eexists. split; [exact Hresult|]. cbn [evaluations].
  split; [|split].
  - intros service evaluation Hlookup.
    destruct (evaluate_single_service_no_winner service C evaluation)
      as [Hjoined Htexts];
      [exact (evaluate_services_entries _ _ C evals Hall _ _ Hlookup)|].
    apply Forall_forall. intros term Hterm. split.
    + by apply (proj1 (scan_false forbidden_terms _) Hjoined).
    + apply Forall_forall. intros text Htext.
      rewrite Forall_forall in Htexts.
      by apply (proj1 (scan_false forbidden_terms _) (Htexts text Htext)).
  - pose proof (evaluate_services_returns C) as Hret.
    rewrite Hall in Hret. destruct Hret as [Hdom _].
    destruct (generated_recommendations_keys evals C)
      as (recommendations & [= <-] & Hkeys).
    cbn [contextual_recommendations].
    rewrite <- size_dom, Hkeys, Hdom.
    replace (service_identifiers ∩ service_identifiers) with service_identifiers
      by set_solver.
    apply size_service_identifiers.
  - intros service recommendation Hlookup.
    apply Forall_forall. intros term Hterm.
    by apply (proj1 (scan_false forbidden_terms _)
                (recommendations_free evals C service recommendation Hlookup)).
Qed.

(** C2. For every constraint set the comparison returns a result with
    exactly three evaluations, keyed by the three service identifiers, and
    exactly three recommendations; the scores of every evaluation are six
    entries, each an integer from 1 to 5. *)
Theorem compare_services_complete (C : UserConstraints) :
  ∃ result,
    compare_services C = Ok result
    ∧ dom (evaluations result) = service_identifiers
    ∧ size (evaluations result) = 3%nat
    ∧ dom (contextual_recommendations result) = service_identifiers
    ∧ size (contextual_recommendations result) = 3%nat
    ∧ map_Forall (λ _ evaluation,
          size (constraint_scores evaluation) = 6%nat
          ∧ map_Forall (λ _ score, 1 ≤ score ≤ 5) (constraint_scores evaluation))
        (evaluations result).
Proof.
  destruct (compare_services_returns C) as (evals & Hall & Hresult).
  pose proof (evaluate_services_returns C) as Hret.
  rewrite Hall in Hret. destruct Hret as [Hdom Hscores].
  destruct (generated_recommendations_keys evals C)
    as (recommendations & [= <-] & Hkeys).
  assert (dom (ExplanationGenerator.generate_contextual_recommendations
                 evals C) = service_identifiers) as Hdom'.
  { rewrite Hkeys, Hdom. set_solver. }
  eexists. split; [exact Hresult|].
  cbn [evaluations contextual_recommendations].
  split; [exact Hdom|]. split.
  { by rewrite <- size_dom, Hdom, size_service_identifiers. }
  split; [exact Hdom'|]. split.
  { by rewrite <- size_dom, Hdom', size_service_identifiers. }
  exact Hscores.
Qed.

(** * Further properties of the components *)

(** ** The scoring system over any table *)

Section AnyRules.
Variable rules : gmap string (gmap string (gmap string Z)).

(** The call returns [n] exactly when the table holds [n] for the three
    keys and [n] is within 1 to 5. *)
Lemma score_returns service constraint value n :
  ScoringSystem.score_service_against_constraint rules service constraint value
  = Ok n
  ↔ table_entry rules service constraint value = Some n ∧ 1 ≤ n ≤ 5.
Proof.
  unfold ScoringSystem.score_service_against_constraint, table_entry.
  destruct (rules !! constraint) as [by_level|]; simpl;
    [|split; [discriminate | by intros [? _]]].
  destruct (by_level !! value) as [by_service|]; simpl;
    [|split; [discriminate | by intros [? _]]].
  destruct (by_service !! service) as [score|]; simpl;
    [|split; [discriminate | by intros [? _]]].
  destruct (1 <=? score) eqn:Hlow, (score <=? 5) eqn:Hhigh; simpl.
  - split; [intros [= <-]; split; [done | lia] | by intros [[= <-] _]].
  - split; [discriminate | intros [[= <-] ?]; lia].
  - split; [discriminate | intros [[= <-] ?]; lia].
  - split; [discriminate | intros [[= <-] ?]; lia].
Qed.

(** X1. Over any table, when [get_all_scores] returns, the map it returns
    has the six constraint names as its keys, each score is within 1 to 5,
    and the score under each name is the entry of the table for that name,
    the level the constraints give it, and the service. *)
Theorem get_all_scores_sound service C scores :
  ScoringSystem.get_all_scores rules service C = Ok scores →
  dom scores = list_to_set ScoringSystem.expected_constraints
  ∧ size scores = 6%nat
  ∧ map_Forall (λ _ score, 1 ≤ score ≤ 5) scores
  ∧ Forall (λ item : string * string,
        scores !! item.1 = table_entry rules service item.1 item.2)
      (ScoringSystem.constraint_mapping C).
Proof.
  unfold ScoringSystem.get_all_scores, ScoringSystem.constraint_mapping.
  cbn [ScoringSystem.get_all_scores_loop].
  repeat match goal with
  | |- context [ScoringSystem.score_service_against_constraint rules ?s ?c ?v] =>
      let n := fresh "n" in let Hn := fresh "Hn" in
      destruct (ScoringSystem.score_service_against_constraint rules s c v)
        as [n|] eqn:Hn; cbn [mbind result_bind]; [|discriminate];
      apply score_returns in Hn
  end.
  intros [= <-].
  assert (dom (<["time_to_market_urgency":=n4]>
            (<["operational_overhead_tolerance":=n3]>
              (<["latency_sensitivity":=n2]>
                (<["scalability_requirement":=n1]>
                  (<["expected_traffic":=n0]>
                    (<["budget_sensitivity":=n]> (∅ : gmap string Z)))))))
          = list_to_set ScoringSystem.expected_constraints) as Hdom.
  { rewrite !dom_insert_L, dom_empty_L.
    unfold ScoringSystem.expected_constraints. set_solver. }
  split; [exact Hdom|]. split; [|split].
  - rewrite <- size_dom, Hdom. vm_compute. reflexivity.
  - intros name score Hlookup.
    repeat (apply lookup_insert_Some in Hlookup as [[_ <-]|[_ Hlookup]]; [lia|]).
    by rewrite lookup_empty in Hlookup.
  - repeat (apply Forall_cons; split); [..|by apply Forall_nil]; cbn [fst snd];
      match goal with
      | H : ?entry = Some _ ∧ _ |- _ = ?entry => rewrite (proj1 H)
      end; vm_compute; reflexivity.
Qed.

Lemma validate_all_rules_iff :
  ScoringSystem.validate_all_rules rules = true
  ↔ Forall (λ constraint,
        Forall (λ level,
            Forall (λ service,
                ∃ n, ScoringSystem.score_service_against_constraint
                       rules service constraint level = Ok n)
              ScoringSystem.expected_services)
          ScoringSystem.expected_levels)
      ScoringSystem.expected_constraints.
Proof.
  unfold ScoringSystem.validate_all_rules.
  rewrite <- Is_true_true, forallb_True.
  apply Forall_iff. intros constraint.
  unfold ScoringSystem.score_service_against_constraint.
  destruct (rules !! constraint) as [by_level|].
  - rewrite forallb_True. apply Forall_iff. intros level.
    destruct (by_level !! level) as [by_service|].
    + rewrite forallb_True. apply Forall_iff. intros service.
      destruct (by_service !! service) as [score|].
      * destruct ((1 <=? score) && (score <=? 5)); simpl;
          [split; [by eexists | done] | split; [done | by intros [? ?]]].
      * split; [done | by intros [? ?]].
    + split; [done|]. intros Hall. by apply Forall_cons in Hall as [[? ?] _].
  - split; [done|]. intros Hall.
    apply Forall_cons in Hall as [Hall _].
    by apply Forall_cons in Hall as [[? ?] _].
Qed.

(** X2. Over any table, the self-test passes exactly when the scoring call
    returns for each of the 54 triples of a known constraint, level and
    service. *)
Theorem validate_all_rules_spec :
  ScoringSystem.validate_all_rules rules = true
  ↔ Forall (λ constraint,
        Forall (λ level,
            Forall (λ service,
                ∃ n, ScoringSystem.score_service_against_constraint
                       rules service constraint level = Ok n)
              ScoringSystem.expected_services)
          ScoringSystem.expected_levels)
      ScoringSystem.expected_constraints.
Proof. apply validate_all_rules_iff. Qed.

(** X3. Over any table that passes the self-test, [get_all_scores]
    returns for each of the three services and every constraint set. *)
Theorem validate_all_rules_total (S : ServiceType) (C : UserConstraints) :
  ScoringSystem.validate_all_rules rules = true →
  ∃ scores, ScoringSystem.get_all_scores rules (service_value S) C = Ok scores.
Proof.
  intros Hvalid. apply validate_all_rules_iff in Hvalid.
  assert (∀ constraint level,
            constraint ∈ ScoringSystem.expected_constraints →
            ∃ n, ScoringSystem.score_service_against_constraint
                   rules (service_value S) constraint (level_value level) = Ok n)
    as Hscore.
  { intros constraint level Hc.
    rewrite Forall_forall in Hvalid. specialize (Hvalid constraint Hc).
    rewrite Forall_forall in Hvalid.
    specialize (Hvalid (level_value level)).
    assert (level_value level ∈ ScoringSystem.expected_levels) as Hl
      by (destruct level; by_evaluation).
    specialize (Hvalid Hl). rewrite Forall_forall in Hvalid.
    apply Hvalid. destruct S; by_evaluation. }
  unfold ScoringSystem.get_all_scores, ScoringSystem.constraint_mapping.
  cbn [ScoringSystem.get_all_scores_loop].
  repeat match goal with
  | |- context [ScoringSystem.score_service_against_constraint rules ?s ?c
                  (level_value ?l)] =>
      let n := fresh "n" in let Hn := fresh "Hn" in
      destruct (Hscore c l) as [n Hn]; [by_evaluation|];
      rewrite Hn; cbn [mbind result_bind]
  end.
  by eexists.
Qed.

End AnyRules.

Lemma get_all_scores_sound_witness :
  ScoringSystem.get_all_scores ScoringSystem._initialize_scoring_rules
    "Lambda" all_high = Ok lambda_all_high_scores
  ∧ dom lambda_all_high_scores = list_to_set ScoringSystem.expected_constraints
  ∧ size lambda_all_high_scores = 6%nat
  ∧ map_Forall (λ _ score, 1 ≤ score ≤ 5) lambda_all_high_scores
  ∧ Forall (λ item : string * string,
        lambda_all_high_scores !! item.1
        = table_entry ScoringSystem._initialize_scoring_rules
            "Lambda" item.1 item.2)
      (ScoringSystem.constraint_mapping all_high).
Proof.
  assert (ScoringSystem.get_all_scores ScoringSystem._initialize_scoring_rules
            "Lambda" all_high = Ok lambda_all_high_scores) as Hrun
    by (vm_cast_no_check (eq_refl (Ok lambda_all_high_scores))).
  split; [exact Hrun|].
  exact (get_all_scores_sound ScoringSystem._initialize_scoring_rules
           "Lambda" all_high lambda_all_high_scores Hrun).
Defined.

Lemma validate_all_rules_total_witness :
  ScoringSystem.validate_all_rules ScoringSystem._initialize_scoring_rules = true
  ∧ ∃ scores,
      ScoringSystem.get_all_scores ScoringSystem._initialize_scoring_rules
        (service_value ECS_FARGATE) all_medium = Ok scores.
Proof.
  split; [vm_compute; reflexivity|].
  apply (validate_all_rules_total ScoringSystem._initialize_scoring_rules
           ECS_FARGATE all_medium).
  vm_compute. reflexivity.
Defined.

(** X4. With the table of the program the guards answer in the order
    constraint, level, service: an unknown constraint is reported whatever
    the other two arguments are, an unknown level under a known constraint
    whatever the service is, and an unknown service last; the message names
    the offending argument. *)
Theorem score_error_messages service constraint value :
  (constraint ∉ ScoringSystem.expected_constraints →
   score_service_against_constraint scoring_system service constraint value
   = Raise (Exn ValueError ("Unknown constraint: " +:+ constraint) None))
  ∧ (constraint ∈ ScoringSystem.expected_constraints →
     value ∉ ScoringSystem.expected_levels →
     score_service_against_constraint scoring_system service constraint value
     = Raise (Exn ValueError ("Unknown constraint value: " +:+ value) None))
  ∧ (constraint ∈ ScoringSystem.expected_constraints →
     value ∈ ScoringSystem.expected_levels →
     service ∉ ScoringSystem.expected_services →
     score_service_against_constraint scoring_system service constraint value
     = Raise (Exn ValueError ("Unknown service: " +:+ service) None)).
Proof.
  cbn [score_service_against_constraint scoring_system ScoringSystem.new].
  unfold ScoringSystem.score_service_against_constraint.
  split; [|split].
  - intros Hc. by rewrite (rules_lookup_None _ Hc).
  - intros Hc Hv.
    destruct (rules_lookup_Some _ Hc) as (r1&r2&r3&r4&r5&r6&r7&r8&r9&->).
    by rewrite (levels_lookup_None _ _ _ _ Hv).
  - intros Hc Hv Hs.
    destruct (rules_lookup_Some _ Hc) as (r1&r2&r3&r4&r5&r6&r7&r8&r9&->).
    destruct (levels_lookup_Some
                (ScoringSystem.row r1 r2 r3) (ScoringSystem.row r4 r5 r6)
                (ScoringSystem.row r7 r8 r9) _ Hv) as (by_service & -> & Hrow).
    destruct Hrow as [->|[->| ->]]; by rewrite (row_lookup_None _ _ _ _ Hs).
Qed.

Lemma score_error_messages_witness :
  score_service_against_constraint scoring_system "GCE" "uptime" "Extreme"
  = Raise (Exn ValueError "Unknown constraint: uptime" None)
  ∧ score_service_against_constraint scoring_system
      "GCE" "expected_traffic" "Extreme"
    = Raise (Exn ValueError "Unknown constraint value: Extreme" None)
  ∧ score_service_against_constraint scoring_system
      "GCE" "expected_traffic" "High"
    = Raise (Exn ValueError "Unknown service: GCE" None).
Proof.
  split; [|split].
  - apply (proj1 (score_error_messages "GCE" "uptime" "Extreme")).
    by_evaluation.
  - apply (proj1 (proj2 (score_error_messages "GCE" "expected_traffic" "Extreme")));
      by_evaluation.
  - apply (proj2 (proj2 (score_error_messages "GCE" "expected_traffic" "High")));
      by_evaluation.
Defined.

(** ** The service repository over any table *)

Lemma get_service_characteristics_spec_aux
    (services : list (string * ServiceCharacteristics.t)) (service : string) :
  (service ∈ ServiceRepository.get_all_services services
   ↔ ∃ characteristics,
       ServiceRepository.get_service_characteristics services service
       = Ok characteristics)
  ∧ (service ∉ ServiceRepository.get_all_services services
     ↔ ServiceRepository.get_service_characteristics services service
       = Raise (Exn ValueError ("Unknown service: " +:+ service) None)).
Proof.
  unfold ServiceRepository.get_all_services,
    ServiceRepository.get_service_characteristics.
  destruct (list_to_map services !! service) as [characteristics|] eqn:Hlookup.
  - assert (service ∈ services.*1) as Hin.
    { apply elem_of_list_to_map_2 in Hlookup.
      apply list_elem_of_fmap. by exists (service, characteristics). }
    split; split; try done; by eexists.
  - apply not_elem_of_list_to_map in Hlookup.
    split; split; try done. by intros [? ?].
Qed.

(** X5. Over any table, a service has characteristics exactly when it is
    one of the listed services; for any other name the lookup raises the
    ValueError "Unknown service: <name>". *)
Theorem get_service_characteristics_spec
    (services : list (string * ServiceCharacteristics.t)) (service : string) :
  (service ∈ ServiceRepository.get_all_services services
   ↔ ∃ characteristics,
       ServiceRepository.get_service_characteristics services service
       = Ok characteristics)
  ∧ (service ∉ ServiceRepository.get_all_services services
     ↔ ServiceRepository.get_service_characteristics services service
       = Raise (Exn ValueError ("Unknown service: " +:+ service) None)).
Proof. apply get_service_characteristics_spec_aux. Qed.

Lemma get_service_characteristics_spec_witness :
  (∃ characteristics,
     ServiceRepository.get_service_characteristics
       ServiceRepository._initialize_services "Lambda" = Ok characteristics)
  ∧ ServiceRepository.get_service_characteristics
      ServiceRepository._initialize_services "GCE"
    = Raise (Exn ValueError "Unknown service: GCE" None).
Proof.
  split.
  - apply (proj1 (get_service_characteristics_spec
                    ServiceRepository._initialize_services "Lambda")).
    by_evaluation.
  - apply (proj2 (get_service_characteristics_spec
                    ServiceRepository._initialize_services "GCE")).
    by_evaluation.
Defined.

(** ** The evaluator over any wiring *)

Section AnyEvaluator.
Variable scoring : ScoringSystemInterface.
Variable repository : ServiceRepositoryInterface.

Lemma evaluate_services_loop_dom services C acc evaluations :
  ConstraintEvaluator.evaluate_services_loop scoring repository services C acc
  = Ok evaluations →
  dom evaluations = list_to_set services ∪ dom acc.
Proof.
  revert acc. induction services as [|s services IH]; intros acc Hloop.
  - injection Hloop as <-. by rewrite list_to_set_nil, (left_id_L ∅ (∪)).
  - simpl in Hloop.
    destruct (ConstraintEvaluator.evaluate_single_service scoring repository s C)
      as [e|err]; simpl in Hloop; [|discriminate].
    rewrite (IH _ Hloop), dom_insert_L, list_to_set_cons.
    by rewrite (assoc_L (∪)), (comm_L (∪) (list_to_set services)).
Qed.

(** X6. Over any wiring, when the batch evaluation returns, its keys are
    exactly the services the repository lists. *)
Theorem evaluate_services_keys C evaluations :
  ConstraintEvaluator.evaluate_services scoring repository C = Ok evaluations →
  dom evaluations = list_to_set (get_all_services repository).
Proof.
  intros Hloop. apply evaluate_services_loop_dom in Hloop.
  by rewrite Hloop, dom_empty_L, (right_id_L ∅ (∪)).
Qed.

Lemma evaluate_services_loop_failure before service after C acc e :
  Forall (λ s, ∃ evaluation,
            ConstraintEvaluator.evaluate_single_service scoring repository s C
            = Ok evaluation) before →
  ConstraintEvaluator.evaluate_single_service scoring repository service C
  = Raise e →
  ConstraintEvaluator.evaluate_services_loop scoring repository
    (before ++ service :: after) C acc = Raise e.
Proof.
  intros Hbefore Hfail. revert acc.
  induction Hbefore as [|s before [evaluation Hs] _ IH]; intros acc; simpl.
  - by rewrite Hfail.
  - rewrite Hs. simpl. apply IH.
Qed.

(** X7. Over any wiring, the batch evaluation gives no partial result: if
    a listed service fails to evaluate and every service listed before it
    evaluates, the batch call raises the exception of that service. *)
Theorem evaluate_services_first_failure before service after C e :
  get_all_services repository = before ++ service :: after →
  Forall (λ s, ∃ evaluation,
            ConstraintEvaluator.evaluate_single_service scoring repository s C
            = Ok evaluation) before →
  ConstraintEvaluator.evaluate_single_service scoring repository service C
  = Raise e →
  ConstraintEvaluator.evaluate_services scoring repository C = Raise e.
Proof.
  intros Hlist Hbefore Hfail. unfold ConstraintEvaluator.evaluate_services.
  rewrite Hlist. by apply evaluate_services_loop_failure.
Qed.

(** X8. Over any wiring, the constraints reach only the scores: two
    evaluations of one service under different constraints have the same
    name, strengths, limitations and use cases. *)
Theorem evaluate_single_service_texts service C1 C2 evaluation1 evaluation2 :
  ConstraintEvaluator.evaluate_single_service scoring repository service C1
  = Ok evaluation1 →
  ConstraintEvaluator.evaluate_single_service scoring repository service C2
  = Ok evaluation2 →
  service_name evaluation1 = service_name evaluation2
  ∧ strengths evaluation1 = strengths evaluation2
  ∧ limitations evaluation1 = limitations evaluation2
  ∧ best_use_cases evaluation1 = best_use_cases evaluation2.
Proof.
  unfold ConstraintEvaluator.evaluate_single_service.
  destruct (get_service_characteristics repository service)
    as [characteristics|]; simpl; [|discriminate].
  destruct (get_all_scores scoring service C1); simpl; [|discriminate].
  destruct (get_all_scores scoring service C2); simpl; [|discriminate].
  by intros [= <-] [= <-].
Qed.

End AnyEvaluator.

Lemma evaluate_services_keys_witness :
  ∃ evaluations,
    evaluate_services constraint_evaluator all_medium = Ok evaluations
    ∧ dom evaluations = list_to_set (get_all_services service_repo).
Proof.
  pose proof (evaluate_services_returns all_medium) as Hret.
  destruct (evaluate_services constraint_evaluator all_medium)
    as [evaluations|] eqn:Hrun; [|destruct Hret].
  exists evaluations. split; [reflexivity|].
  exact (evaluate_services_keys scoring_system service_repo
           all_medium evaluations Hrun).
Defined.

Lemma evaluate_services_first_failure_witness :
  ConstraintEvaluator.evaluate_services
    scoring_system (ServiceRepository.over (twin_services ++ unknown_services))
    all_medium
  = Raise (Exn ValueError "Unknown service: GCE" None).
Proof.
  apply (evaluate_services_first_failure scoring_system
           (ServiceRepository.over (twin_services ++ unknown_services))
           [service_value EC2; service_value LAMBDA] "GCE" [] all_medium).
  - reflexivity.
  - apply Forall_cons; split; [|apply Forall_cons; split; [|by apply Forall_nil]];
      eexists; vm_compute; reflexivity.
  - vm_compute. reflexivity.
Defined.

Lemma evaluate_single_service_texts_witness :
  ∃ evaluation1 evaluation2,
    ConstraintEvaluator.evaluate_single_service
      scoring_system service_repo "Lambda" all_medium = Ok evaluation1
    ∧ ConstraintEvaluator.evaluate_single_service
        scoring_system service_repo "Lambda" all_high = Ok evaluation2
    ∧ service_name evaluation1 = service_name evaluation2
    ∧ strengths evaluation1 = strengths evaluation2
    ∧ limitations evaluation1 = limitations evaluation2
    ∧ best_use_cases evaluation1 = best_use_cases evaluation2.
Proof.
  destruct (ConstraintEvaluator.evaluate_single_service
              scoring_system service_repo "Lambda" all_medium)
    as [evaluation1|] eqn:Hrun1; [|by vm_compute in Hrun1].
  destruct (ConstraintEvaluator.evaluate_single_service
              scoring_system service_repo "Lambda" all_high)
    as [evaluation2|] eqn:Hrun2; [|by vm_compute in Hrun2].
  exists evaluation1, evaluation2. split; [reflexivity|]. split; [reflexivity|].
  exact (evaluate_single_service_texts scoring_system service_repo
           "Lambda" all_medium all_high evaluation1 evaluation2 Hrun1 Hrun2).
Defined.



(** ** The independence check *)

Lemma independent_sym eval1 eval2 :
  independent eval1 eval2 → independent eval2 eval1.
Proof. intros (Hn & Hs & Hl). by repeat split. Qed.

Lemma assert_distinct_from_spec item1 rest :
  (ConstraintEvaluator.assert_distinct_from item1 rest = Ok ()
   ↔ Forall (λ item2, independent item1.2 item2.2) rest)
  ∧ (ConstraintEvaluator.assert_distinct_from item1 rest = Ok ()
     ∨ ∃ msg, ConstraintEvaluator.assert_distinct_from item1 rest
              = Raise (Exn AssertionError msg None)).
Proof.
  destruct item1 as [service1 eval1].
  induction rest as [|[service2 eval2] rest [IH IH']]; simpl.
  - split; [by split | by left].
  - unfold independent. cbn [snd].
    repeat case_bool_decide; try (split; [split|];
      [discriminate | intros Hall; apply Forall_cons in Hall; tauto
      | right; by eexists]).
    split; [|exact IH'].
    rewrite IH. split.
    + intros Hrest. by apply Forall_cons.
    + intros Hall. by apply Forall_cons in Hall as [_ Hrest].
Qed.

Lemma independence_loop_spec items :
  (ConstraintEvaluator.independence_loop items = Ok ()
   ↔ ForallOrdPairs (λ item1 item2, independent item1.2 item2.2) items)
  ∧ (ConstraintEvaluator.independence_loop items = Ok ()
     ∨ ∃ msg, ConstraintEvaluator.independence_loop items
              = Raise (Exn AssertionError msg None)).
Proof.
  induction items as [|item1 rest [IH IH']]; simpl.
  - split; [split; [constructor | done] | by left].
  - destruct (assert_distinct_from_spec item1 rest) as [Hhead Hhead'].
    destruct (ConstraintEvaluator.assert_distinct_from item1 rest) as [[]|e];
      simpl.
    + split; [|exact IH']. rewrite IH. split.
      * intros Hrest. constructor; [by apply Hhead | exact Hrest].
      * intros Hall. by inversion Hall.
    + split.
      * split; [discriminate|]. intros Hall. inversion Hall as [|? ? Hfirst _].
        apply Hhead in Hfirst. discriminate.
      * right. destruct Hhead' as [|[msg [= ->]]]; [discriminate | by eexists].
Qed.

(** Over a list whose keys are distinct, a symmetric relation holds of
    every ordered pair exactly when it holds of any two items with
    different keys. *)
Lemma ForallOrdPairs_distinct_keys {V} (R : V → V → Prop)
    (items : list (string * V)) :
  (∀ x y, R x y → R y x) →
  NoDup items.*1 →
  ForallOrdPairs (λ item1 item2, R item1.2 item2.2) items
  ↔ ∀ key1 key2 value1 value2,
      key1 ≠ key2 → (key1, value1) ∈ items → (key2, value2) ∈ items →
      R value1 value2.
Proof.
  intros Hsym Hnodup. split.
  - intros Hall key1 key2 value1 value2 Hne Hin1 Hin2.
    apply list_elem_of_In in Hin1, Hin2.
    destruct (ForallOrdPairs_In Hall _ _ Hin1 Hin2) as [Heq|[HR|HR]];
      [congruence | exact HR | by apply Hsym].
  - intros Hpairs. induction items as [|[key value] items IH]; [constructor|].
    apply NoDup_cons in Hnodup as [Hfresh Hnodup]. constructor.
    + apply Forall_forall. intros [key' value'] Hin.
      apply (Hpairs key key' value value').
      * intros ->. apply Hfresh, list_elem_of_fmap.
        exists (key', value'). by split.
      * apply elem_of_cons. by left.
      * apply elem_of_cons. by right.
    + apply IH; [exact Hnodup|].
      intros key1 key2 value1 value2 Hne Hin1 Hin2.
      apply (Hpairs key1 key2); [done | |]; apply elem_of_cons; by right.
Qed.

(** X10. The independence check passes exactly when any two evaluations
    under different keys differ in name, in strengths and in limitations;
    when it does not pass it raises an AssertionError. *)
Theorem ensure_evaluation_independence_spec
    (evaluations : gmap string ServiceEvaluation) :
  (ConstraintEvaluator._ensure_evaluation_independence evaluations = Ok ()
   ↔ ∀ key1 key2 eval1 eval2,
       key1 ≠ key2 →
       evaluations !! key1 = Some eval1 → evaluations !! key2 = Some eval2 →
       independent eval1 eval2)
  ∧ (ConstraintEvaluator._ensure_evaluation_independence evaluations = Ok ()
     ∨ ∃ msg, ConstraintEvaluator._ensure_evaluation_independence evaluations
              = Raise (Exn AssertionError msg None)).
Proof.
  unfold ConstraintEvaluator._ensure_evaluation_independence.
  destruct (independence_loop_spec (map_to_list evaluations)) as [Hok Hraise].
  split; [|exact Hraise].
  rewrite Hok, (ForallOrdPairs_distinct_keys independent);
    [|exact independent_sym | apply NoDup_fst_map_to_list].
  split; intros Hpairs key1 key2 eval1 eval2 Hne Hin1 Hin2.
  - apply (Hpairs key1 key2); [done | |]; by apply elem_of_map_to_list.
  - apply (Hpairs key1 key2); [done | |]; by apply elem_of_map_to_list.
Qed.

(** X11. With the tables of the program the evaluations of every
    constraint set pass the independence check. *)
Theorem evaluations_independent (C : UserConstraints) :
  ∃ evaluations,
    evaluate_services constraint_evaluator C = Ok evaluations
    ∧ ConstraintEvaluator._ensure_evaluation_independence evaluations = Ok ().
Proof.
  assert (∀ C, returns (evaluate_services constraint_evaluator C)
                 (λ evaluations,
                    returns (ConstraintEvaluator._ensure_evaluation_independence
                               evaluations) (λ _, True))) as Hall
    by check_all_constraints.
  specialize (Hall C).
  destruct (evaluate_services constraint_evaluator C) as [evaluations|];
    [|destruct Hall].
  exists evaluations. split; [reflexivity|]. simpl in Hall.
  by destruct (ConstraintEvaluator._ensure_evaluation_independence evaluations)
    as [[]|].
Qed.

(** With a catalog of two services that share their limitations the check
    raises. *)
Lemma twin_services_not_independent :
  returns (evaluate_services (evaluator_over twin_services) all_medium)
    (λ evaluations,
       ConstraintEvaluator._ensure_evaluation_independence evaluations
       = Raise (Exn AssertionError
                  "Services EC2 and Lambda have identical limitations" None)
       ∨ ConstraintEvaluator._ensure_evaluation_independence evaluations
         = Raise (Exn AssertionError
                    "Services Lambda and EC2 have identical limitations" None)).
Proof. vm_compute. left. reflexivity. Qed.

(** ** Scanning joined texts *)

Lemma lower_app s t : lower (s +:+ t) = lower s +:+ lower t.
Proof. induction s as [|c s IH]; simpl; [done | by rewrite IH]. Qed.

Lemma str_in_app_l needle s t :
  str_in needle s = true → str_in needle (s +:+ t) = true.
Proof.
  induction s as [|c s IH]; cbn [str_in String.append].
  - destruct needle; [intros _; by destruct t | discriminate].
  - intros Hfound.
    change (String.prefix needle (String c s +:+ t) || str_in needle (s +:+ t)
            = true).
    apply orb_true_iff in Hfound as [Hprefix|Hrest].
    + by rewrite (prefix_app _ _ _ Hprefix).
    + rewrite (IH Hrest). apply orb_true_r.
Qed.

(** A text found in one part is found in the parts joined. *)
Lemma str_in_join sep needle part parts :
  part ∈ parts → str_in needle part = true →
  str_in needle (join sep parts) = true.
Proof.
  intros Hin Hfound. unfold join.
  induction parts as [|p parts IH]; [by apply elem_of_nil in Hin|].
  apply elem_of_cons in Hin as [<-|Hin]; simpl.
  - destruct parts; [done | by apply str_in_app_l].
  - destruct parts as [|q parts]; [by apply elem_of_nil in Hin|].
    apply str_in_app_r, str_in_app_r, IH, Hin.
Qed.

Lemma lower_join sep parts :
  lower (join sep parts) = join (lower sep) (lower <$> parts).
Proof.
  unfold join. induction parts as [|p parts IH]; [done|].
  destruct parts as [|q parts]; [done|].
  change (lower (p +:+ sep +:+ String.concat sep (q :: parts))
          = lower p +:+ lower sep
            +:+ String.concat (lower sep) (lower <$> q :: parts)).
  by rewrite !lower_app, IH.
Qed.

(** A word found, ignoring case, in the name or in one strength,
    limitation or use case of an evaluation is found in the text the
    validator scans. *)
Lemma str_in_all_text word text evaluation :
  text ∈ evaluation_texts evaluation →
  str_in word (lower text) = true →
  str_in word (lower (ConstraintEvaluator.all_text evaluation)) = true.
Proof.
  unfold evaluation_texts, ConstraintEvaluator.all_text.
  intros Hin Hfound. rewrite lower_join.
  assert (∀ texts, text ∈ texts → str_in word (lower (join " " texts)) = true)
    as Hlist.
  { intros texts Htexts. rewrite lower_join.
    apply (str_in_join _ _ (lower text)); [|exact Hfound].
    by apply list_elem_of_fmap_2. }
  apply elem_of_cons in Hin as [->|Hin];
    [|apply elem_of_app in Hin as [Hin|Hin];
      [|apply elem_of_app in Hin as [Hin|Hin]]].
  - apply (str_in_join _ _ (lower (service_name evaluation))); [|exact Hfound].
    apply elem_of_cons. by left.
  - apply (str_in_join _ _ (lower (join " " (strengths evaluation))));
      [|by apply Hlist].
    do 1 (apply elem_of_cons; right). apply elem_of_cons. by left.
  - apply (str_in_join _ _ (lower (join " " (limitations evaluation))));
      [|by apply Hlist].
    do 2 (apply elem_of_cons; right). apply elem_of_cons. by left.
  - apply (str_in_join _ _ (lower (join " " (best_use_cases evaluation))));
      [|by apply Hlist].
    do 3 (apply elem_of_cons; right). apply elem_of_cons. by left.
Qed.

(** X12. The validator misses no text: if one of its five winner words
    occurs, ignoring case, in the name or in a strength, a limitation or a
    use case of some evaluation of the map, it returns False. *)
Theorem validate_no_winner_declaration_detects
    (evaluations : gmap string ServiceEvaluation) key evaluation text word :
  evaluations !! key = Some evaluation →
  text ∈ evaluation_texts evaluation →
  word ∈ ConstraintEvaluator.winner_words →
  str_in word (lower text) = true →
  ConstraintEvaluator.validate_no_winner_declaration evaluations = false.
Proof.
  intros Hlookup Htext Hword Hfound.
  apply not_true_is_false. intros Hvalid.
  unfold ConstraintEvaluator.validate_no_winner_declaration in Hvalid.
  rewrite forallb_forall in Hvalid.
  specialize (Hvalid (key, evaluation)).
  rewrite <- list_elem_of_In, elem_of_map_to_list in Hvalid.
  specialize (Hvalid Hlookup). rewrite forallb_forall in Hvalid.
  specialize (Hvalid word). rewrite <- list_elem_of_In in Hvalid.
  specialize (Hvalid Hword). cbn [snd] in Hvalid.
  by rewrite (str_in_all_text _ _ _ Htext Hfound) in Hvalid.
Qed.

Lemma validate_no_winner_declaration_detects_witness :
  ConstraintEvaluator.validate_no_winner_declaration
    {[ "EC2" := {| service_name := "AWS EC2";
                   constraint_scores := ∅;
                   strengths := [ "Full control"; "The BEST performance" ];
                   limitations := [];
                   best_use_cases := [] |} ]}
  = false.
Proof.
  apply (validate_no_winner_declaration_detects _ "EC2"
           {| service_name := "AWS EC2";
              constraint_scores := ∅;
              strengths := [ "Full control"; "The BEST performance" ];
              limitations := [];
              best_use_cases := [] |}
           "The BEST performance" "best").
  - vm_compute. reflexivity.
  - by_evaluation.
  - by_evaluation.
  - vm_compute. reflexivity.
Defined.

(** ** The trade-off analysis *)

(** X13. For any evaluations and any constraint set, the two narratives
    of the analysis are non-empty and each holds one of the three required
    phrases. *)
Theorem analyze_trade_offs_narratives
    (E : gmap string ServiceEvaluation) (C : UserConstraints) :
  cost_vs_control (TradeOffAnalyzer.analyze_trade_offs E C) ≠ ""
  ∧ latency_vs_ops_complexity (TradeOffAnalyzer.analyze_trade_offs E C) ≠ ""
  ∧ ExplanationGenerator.validate_required_phrases
      (cost_vs_control (TradeOffAnalyzer.analyze_trade_offs E C)) = true
  ∧ ExplanationGenerator.validate_required_phrases
      (latency_vs_ops_complexity (TradeOffAnalyzer.analyze_trade_offs E C)) = true.
Proof.
  destruct C as [budget traffic scalability latency overhead urgency].
  cbn [TradeOffAnalyzer.analyze_trade_offs cost_vs_control
       latency_vs_ops_complexity].
  split; [|split; [|split]].
  - by destruct budget.
  - by destruct latency.
  - destruct budget; vm_compute; reflexivity.
  - destruct latency; vm_compute; reflexivity.
Qed.

(** X14. The neutrality check does not read the trade-off analysis: for
    every constraint set the comparison returns, its cost narrative holds no
    forbidden term, and its latency narrative holds the forbidden term
    "perfect" exactly when the latency sensitivity is not High. *)
Theorem compare_services_latency_narrative (C : UserConstraints) :
  ∃ result,
    compare_services C = Ok result
    ∧ scan forbidden_terms (cost_vs_control (trade_off_analysis result)) = false
    ∧ scan forbidden_terms
        (latency_vs_ops_complexity (trade_off_analysis result))
      = negb (is_high (latency_sensitivity C))
    ∧ str_in "perfect"
        (lower (latency_vs_ops_complexity (trade_off_analysis result)))
      = negb (is_high (latency_sensitivity C)).
Proof.
  destruct (compare_services_returns C) as (evals & _ & Hresult).
  eexists. split; [exact Hresult|].
  cbn [trade_off_analysis TradeOffAnalyzer.analyze_trade_offs cost_vs_control
       latency_vs_ops_complexity].
  destruct C as [budget traffic scalability latency overhead urgency].
  split; [|split].
  - destruct budget; vm_compute; reflexivity.
  - destruct latency; vm_compute; reflexivity.
  - destruct latency; vm_compute; reflexivity.
Qed.

(** X15. Every warning, of the analyzer and of the engine, holds one of
    the three required phrases and no forbidden term, for every constraint
    set. *)
Theorem edge_case_warnings_phrases
    (E : gmap string ServiceEvaluation) (C : UserConstraints) :
  Forall (λ warning,
      ExplanationGenerator.validate_required_phrases warning = true
      ∧ scan forbidden_terms warning = false)
    (TradeOffAnalyzer._generate_edge_case_warnings C
     ++ ComparisonEngine._identify_edge_case_warnings C E).
Proof.
  destruct C as [budget traffic scalability latency overhead urgency].
  apply Forall_app. split.
  - unfold TradeOffAnalyzer._generate_edge_case_warnings. cbv zeta.
    repeat (apply Forall_app; split); try apply Forall_nil_2.
    + destruct budget, scalability; try apply Forall_nil_2;
        apply Forall_cons; split; [|apply Forall_nil_2];
        split; vm_compute; reflexivity.
    + destruct latency, traffic; try apply Forall_nil_2;
        apply Forall_cons; split; [|apply Forall_nil_2];
        split; vm_compute; reflexivity.
    + destruct urgency, overhead; try apply Forall_nil_2;
        apply Forall_cons; split; [|apply Forall_nil_2];
        split; vm_compute; reflexivity.
  - unfold ComparisonEngine._identify_edge_case_warnings. cbv zeta.
    repeat (apply Forall_app; split); try apply Forall_nil_2.
    + destruct budget, scalability; try apply Forall_nil_2;
        apply Forall_cons; split; [|apply Forall_nil_2];
        split; vm_compute; reflexivity.
    + destruct latency, traffic; try apply Forall_nil_2;
        apply Forall_cons; split; [|apply Forall_nil_2];
        split; vm_compute; reflexivity.
    + destruct urgency, overhead; try apply Forall_nil_2;
        apply Forall_cons; split; [|apply Forall_nil_2];
        split; vm_compute; reflexivity.
    + destruct budget, latency; try apply Forall_nil_2;
        apply Forall_cons; split; [|apply Forall_nil_2];
        split; vm_compute; reflexivity.
Qed.

(** X16. The two rule sets for warnings: the engine's list has one
    warning for each warning of the analyzer and one more exactly when budget
    and latency sensitivity are both High; the wordings differ, so no warning
    of the analyzer is a warning of the engine; and a warning that mentions
    "serverless" is in either list exactly when the time-to-market urgency is
    High and the operational overhead tolerance is Low. *)
Theorem edge_case_warnings_two_rule_sets
    (E : gmap string ServiceEvaluation) (C : UserConstraints) :
  length (ComparisonEngine._identify_edge_case_warnings C E)
  = (length (TradeOffAnalyzer._generate_edge_case_warnings C)
     + (if is_high (budget_sensitivity C) && is_high (latency_sensitivity C)
        then 1 else 0))%nat
  ∧ Forall (λ warning,
        warning ∉ ComparisonEngine._identify_edge_case_warnings C E)
      (TradeOffAnalyzer._generate_edge_case_warnings C)
  ∧ (Exists (λ warning, str_in "serverless" warning = true)
       (TradeOffAnalyzer._generate_edge_case_warnings C)
     ↔ time_to_market_urgency C = HIGH
       ∧ operational_overhead_tolerance C = LOW)
  ∧ (Exists (λ warning, str_in "serverless" warning = true)
       (ComparisonEngine._identify_edge_case_warnings C E)
     ↔ time_to_market_urgency C = HIGH
       ∧ operational_overhead_tolerance C = LOW).
Proof. revert C. check_all_constraints. Qed.

(** ** Required phrases *)

Lemma prefix_lower needle s :
  String.prefix needle s = true → String.prefix (lower needle) (lower s) = true.
Proof.
  revert s. induction needle as [|a needle IH]; intros s.
  - intros _. by destruct (lower s).
  - destruct s as [|b s]; simpl; [discriminate|].
    destruct (Ascii.ascii_dec a b) as [->|]; [|discriminate].
    intros Hrest. destruct (Ascii.ascii_dec (lower_ascii b) (lower_ascii b));
      [by apply IH | done].
Qed.

(** A text found in its exact casing is found when both are lowered. *)
Lemma str_in_lower needle s :
  str_in needle s = true → str_in (lower needle) (lower s) = true.
Proof.
  induction s as [|c s IH].
  - destruct needle; [done | discriminate].
  - intros Hfound.
    change (String.prefix (lower needle) (lower (String c s))
            || str_in (lower needle) (lower s) = true).
    change (String.prefix needle (String c s) || str_in needle s = true)
      in Hfound.
    apply orb_true_iff in Hfound as [Hprefix|Hrest].
    + by rewrite (prefix_lower _ _ Hprefix).
    + rewrite (IH Hrest). apply orb_true_r.
Qed.

Lemma validate_required_phrases_exact text :
  Exists (λ phrase, str_in phrase text = true)
    ExplanationGenerator.required_phrases →
  ExplanationGenerator.validate_required_phrases text = true.
Proof.
  intros Hex. unfold ExplanationGenerator.validate_required_phrases.
  apply Is_true_true, existb_True.
  eapply Exists_impl; [exact Hex|]. intros phrase Hfound.
  apply Is_true_true. by apply str_in_lower.
Qed.

(** X17. Whatever the evaluations and the constraint set, every
    recommendation the generator writes passes [validate_required_phrases]. *)
Theorem recommendations_validate
    (E : gmap string ServiceEvaluation) (C : UserConstraints) key text :
  ExplanationGenerator.generate_contextual_recommendations E C !! key
  = Some text →
  ExplanationGenerator.validate_required_phrases text = true.
Proof.
  rewrite generate_contextual_recommendations_lookup.
  destruct (E !! key) as [evaluation|]; simpl; [|done].
  intros Hfor. apply validate_required_phrases_exact.
  by apply (recommendation_for_phrase C key evaluation).
Qed.

Lemma recommendations_validate_witness :
  ∃ text,
    ExplanationGenerator.generate_contextual_recommendations
      stray_evaluations all_high !! "EC2" = Some text
    ∧ ExplanationGenerator.validate_required_phrases text = true.
Proof.
  destruct (ExplanationGenerator.generate_contextual_recommendations
              stray_evaluations all_high !! "EC2") as [text|] eqn:Hrun;
    [|by vm_compute in Hrun].
  exists text. split; [reflexivity|].
  exact (recommendations_validate stray_evaluations all_high "EC2" text Hrun).
Defined.

(** ** The summaries *)

Lemma prefix_refl s : String.prefix s s = true.
Proof.
  induction s as [|c s IH]; simpl; [done|].
  by destruct (Ascii.ascii_dec c c).
Qed.

Lemma str_in_refl s : str_in s s = true.
Proof. apply str_in_prefix, prefix_refl. Qed.

(** X18. The summary of a non-empty list of conflicts names every
    conflict of the list and passes [validate_required_phrases]; the summary
    of a non-empty list of warnings holds every warning of the list; and the
    summaries of the empty lists are the two fixed sentences. *)
Theorem summaries_spec (conflicts warnings : list string) :
  (conflicts ≠ [] →
   Forall (λ conflict,
       str_in conflict (ExplanationGenerator._summarize_conflicts conflicts)
       = true) conflicts
   ∧ ExplanationGenerator.validate_required_phrases
       (ExplanationGenerator._summarize_conflicts conflicts) = true)
  ∧ (warnings ≠ [] →
     Forall (λ warning,
         str_in warning (ExplanationGenerator._summarize_edge_cases warnings)
         = true) warnings)
  ∧ ExplanationGenerator._summarize_conflicts []
    = "No major constraint conflicts detected."
  ∧ ExplanationGenerator._summarize_edge_cases []
    = "No significant edge cases detected with the current constraint combination.".
Proof.
  split; [|split; [|by split]].
  - intros Hne. destruct conflicts as [|c conflicts]; [done|].
    unfold ExplanationGenerator._summarize_conflicts. cbv zeta. split.
    + apply Forall_forall. intros conflict Hin.
      apply str_in_app_l, str_in_app_r, str_in_app_l.
      apply (str_in_join _ _ conflict); [exact Hin | apply str_in_refl].
    + apply validate_required_phrases_exact.
      do 2 apply Exists_cons_tl. apply Exists_cons_hd.
      apply str_in_app_r.
      apply str_in_prefix. vm_compute. reflexivity.
  - intros Hne. destruct warnings as [|w warnings]; [done|].
    unfold ExplanationGenerator._summarize_edge_cases.
    apply Forall_forall. intros warning Hin.
    apply (str_in_join _ _ warning); [|apply str_in_refl].
    apply elem_of_cons. by right.
Qed.

Lemma summaries_spec_witness :
  Forall (λ conflict,
      str_in conflict
        (ExplanationGenerator._summarize_conflicts
           (TradeOffAnalyzer.identify_constraint_conflicts all_high))
      = true)
    (TradeOffAnalyzer.identify_constraint_conflicts all_high)
  ∧ ExplanationGenerator.validate_required_phrases
      (ExplanationGenerator._summarize_conflicts
         (TradeOffAnalyzer.identify_constraint_conflicts all_high)) = true.
Proof.
  apply (proj1 (summaries_spec
                  (TradeOffAnalyzer.identify_constraint_conflicts all_high) [])).
  discriminate.
Defined.

(** ** The engine over any wiring *)

Lemma check_recommendations_spec (items : list (string * string)) :
  ComparisonEngine.check_recommendations items = Ok ()
  ↔ Forall (λ item, scan ComparisonEngine.winner_phrases item.2 = false) items.
Proof.
  induction items as [|[service recommendation] items IH]; [by split|].
  rewrite Forall_cons, <- IH.
  cbn [ComparisonEngine.check_recommendations snd].
  unfold scan, ComparisonEngine.winner_phrases. cbn [find existsb].
  destruct (str_in "best choice" (lower recommendation));
    [split; [discriminate | by intros [? _]]|].
  destruct (str_in "optimal" (lower recommendation));
    [split; [discriminate | by intros [? _]]|].
  destruct (str_in "winner" (lower recommendation));
    [split; [discriminate | by intros [? _]]|].
  destruct (str_in "perfect solution" (lower recommendation));
    [split; [discriminate | by intros [? _]]|].
  split; [by split | by intros [_ ?]].
Qed.

Section AnyEngine.
Variable evaluator : ConstraintEvaluatorInterface.
Variable analyzer : TradeOffAnalyzerInterface.
Variable generator : ExplanationGeneratorInterface.

(** X19. Over any wiring, a result that [compare_services] returns is
    made of what the three components returned and has passed the
    neutrality check: the evaluator's validator answered True, there are
    three evaluations and three recommendations, and no recommendation
    holds, ignoring case, one of the engine's four winner phrases. *)
Theorem compare_services_postcondition C result :
  ComparisonEngine.compare_services evaluator analyzer generator C = Ok result →
  evaluate_services evaluator C = Ok (evaluations result)
  ∧ analyze_trade_offs analyzer (evaluations result) C
    = Ok (trade_off_analysis result)
  ∧ generate_contextual_recommendations generator (evaluations result) C
    = Ok (contextual_recommendations result)
  ∧ result_edge_case_warnings result
    = ComparisonEngine._identify_edge_case_warnings C (evaluations result)
  ∧ validate_no_winner_declaration evaluator (evaluations result) = Ok true
  ∧ size (evaluations result) = 3%nat
  ∧ size (contextual_recommendations result) = 3%nat
  ∧ map_Forall (λ _ recommendation,
        scan ComparisonEngine.winner_phrases recommendation = false)
      (contextual_recommendations result).
Proof.
  unfold ComparisonEngine.compare_services,
    ComparisonEngine.try_except_Exception.
  destruct (evaluate_services evaluator C) as [evals|e] eqn:Hev;
    cbn [mbind result_bind];
    [|rewrite isinstance_Exception; discriminate].
  destruct (analyze_trade_offs analyzer evals C) as [analysis|e] eqn:Han;
    cbn [mbind result_bind];
    [|rewrite isinstance_Exception; discriminate].
  destruct (generate_contextual_recommendations generator evals C)
    as [recs|e] eqn:Hrec; cbn [mbind result_bind];
    [|rewrite isinstance_Exception; discriminate].
  unfold ComparisonEngine._validate_neutrality.
  cbn [evaluations contextual_recommendations].
  destruct (validate_no_winner_declaration evaluator evals) as [[]|e] eqn:Hval;
    cbn [mbind result_bind negb];
    try (unfold raise; cbn [mbind result_bind];
         rewrite isinstance_Exception; discriminate).
  destruct (size evals =? 3)%nat eqn:Hsize; cbn [negb];
    [|unfold raise; cbn [mbind result_bind];
      rewrite isinstance_Exception; discriminate].
  destruct (size recs =? 3)%nat eqn:Hsize'; cbn [negb];
    [|unfold raise; cbn [mbind result_bind];
      rewrite isinstance_Exception; discriminate].
  destruct (ComparisonEngine.check_recommendations (map_to_list recs))
    as [[]|e] eqn:Hcheck; cbn [mbind result_bind];
    [|rewrite isinstance_Exception; discriminate].
  intros [= <-]. cbn [evaluations trade_off_analysis contextual_recommendations
                      result_edge_case_warnings].
  apply Nat.eqb_eq in Hsize, Hsize'.
  repeat (split; [done|]).
  apply check_recommendations_spec in Hcheck.
  intros service recommendation Hlookup.
  rewrite Forall_forall in Hcheck.
  apply (Hcheck (service, recommendation)). by apply elem_of_map_to_list.
Qed.


End AnyEngine.

Lemma generated_recommendations_size
    (E : gmap string ServiceEvaluation) (C : UserConstraints) :
  dom E = service_identifiers →
  size (ExplanationGenerator.generate_contextual_recommendations E C) = 3%nat.
Proof.
  intros Hdom. rewrite <- size_service_identifiers, <- size_dom. f_equal.
  apply set_eq. intros key. rewrite elem_of_dom.
  rewrite generate_contextual_recommendations_lookup.
  assert (key ∈ service_identifiers ↔ is_Some (E !! key)) as Hkey
    by (by rewrite <- Hdom, elem_of_dom).
  unfold service_identifiers in *.
  rewrite !elem_of_union, !elem_of_singleton in *.
  destruct (E !! key) as [evaluation|]; simpl.
  - unfold recommendation_for.
    destruct Hkey as [_ Hkey]. specialize (Hkey (ltac:(by eexists))).
    repeat case_bool_decide; split; intros ?; try by eexists.
    all: try tauto.
  - split; [by intros [? ?]|]. intros Hin. by apply Hkey in Hin as [? ?].
Qed.

Lemma compare_services_postcondition_witness :
  ∃ result,
    compare_services all_medium = Ok result
    ∧ evaluate_services constraint_evaluator all_medium
      = Ok (evaluations result)
    ∧ analyze_trade_offs trade_off_analyzer (evaluations result) all_medium
      = Ok (trade_off_analysis result)
    ∧ generate_contextual_recommendations explanation_generator
        (evaluations result) all_medium
      = Ok (contextual_recommendations result)
    ∧ result_edge_case_warnings result
      = ComparisonEngine._identify_edge_case_warnings all_medium
          (evaluations result)
    ∧ validate_no_winner_declaration constraint_evaluator (evaluations result)
      = Ok true
    ∧ size (evaluations result) = 3%nat
    ∧ size (contextual_recommendations result) = 3%nat
    ∧ map_Forall (λ _ recommendation,
          scan ComparisonEngine.winner_phrases recommendation = false)
        (contextual_recommendations result).
Proof.
  destruct (compare_services_returns all_medium) as (evals & _ & Hrun).
  eexists. split; [exact Hrun|].
  exact (compare_services_postcondition
           constraint_evaluator trade_off_analyzer explanation_generator
           all_medium _ Hrun).
Defined.


(** X21. With the components of the program,
    [validate_constraint_handling] answers True for every constraint set. *)
Theorem validate_constraint_handling_all (C : UserConstraints) :
  ComparisonEngine.validate_constraint_handling
    constraint_evaluator trade_off_analyzer explanation_generator C = true.
Proof.
  unfold ComparisonEngine.validate_constraint_handling.
  destruct (compare_services_returns C) as (evals & Hall & Hresult).
  unfold compare_services in Hresult. rewrite Hresult.
  cbn [evaluations contextual_recommendations].
  pose proof (evaluate_services_returns C) as Hret.
  rewrite Hall in Hret. destruct Hret as [Hdom _].
  rewrite (generated_recommendations_size evals C Hdom).
  by rewrite <- size_dom, Hdom, size_service_identifiers.
Qed.

(** ** The boundary: from the form to the engine *)

Section Boundary.
Variable repr : string → string.

Lemma ConstraintLevel_of_value_value level :
  UIController.ConstraintLevel_of_value repr (level_value level) = Ok level.
Proof. by destruct level. Qed.

Lemma ConstraintLevel_of_value_Ok value level :
  UIController.ConstraintLevel_of_value repr value = Ok level ↔
  value = level_value level.
Proof.
  split; [|intros ->; apply ConstraintLevel_of_value_value].
  unfold UIController.ConstraintLevel_of_value.
  destruct (String.eqb_spec value (level_value LOW)) as [->|_];
    [by intros [= <-]|].
  destruct (String.eqb_spec value (level_value MEDIUM)) as [->|_];
    [by intros [= <-]|].
  destruct (String.eqb_spec value (level_value HIGH)) as [->|_];
    [by intros [= <-] | discriminate].
Qed.

(** One field of the form: it converts exactly when the key is present
    with one of the three options as its value. *)
Lemma field_converts (inputs : gmap string string) key level :
  UIController.getitem repr inputs key
    ≫= UIController.ConstraintLevel_of_value repr = Ok level
  ↔ inputs !! key = Some (level_value level).
Proof.
  unfold UIController.getitem.
  destruct (inputs !! key) as [value|]; cbn [mbind result_bind].
  - rewrite ConstraintLevel_of_value_Ok. split; [by intros -> | by intros [= ->]].
  - split; discriminate.
Qed.

Lemma option_is_level value :
  value ∈ UIController.constraint_options ↔ ∃ level, value = level_value level.
Proof.
  unfold UIController.constraint_options.
  rewrite !elem_of_cons, elem_of_nil. split.
  - intros [->|[->|[->|[]]]]; [by exists LOW | by exists MEDIUM | by exists HIGH].
  - intros [[] ->]; tauto.
Qed.

Lemma create_user_constraints_iff
    (inputs : gmap string string) (C : UserConstraints) :
  UIController.create_user_constraints_from_input repr inputs = Ok C
  ↔ Forall (λ item : string * string, inputs !! item.1 = Some item.2)
      (ScoringSystem.constraint_mapping C).
Proof.
  unfold UIController.create_user_constraints_from_input,
    ScoringSystem.constraint_mapping.
  rewrite !Forall_cons, Forall_nil. cbn [fst snd].
  rewrite <- !field_converts. destruct C as [b t s l o u].
  cbn [budget_sensitivity expected_traffic scalability_requirement
       latency_sensitivity operational_overhead_tolerance
       time_to_market_urgency].
  repeat match goal with
  | |- context [UIController.getitem repr inputs ?key
                ≫= UIController.ConstraintLevel_of_value repr] =>
      destruct (UIController.getitem repr inputs key
                ≫= UIController.ConstraintLevel_of_value repr) as [?level|?e];
      cbn [mbind result_bind]
  end.
  all: split; [intros [= <- <- <- <- <- <-] | intros Hall]; try done.
  all: destruct Hall as ([= ->] & [= ->] & [= ->] & [= ->] & [= ->] & [= ->] & _);
    done.
Qed.

(** X22. The conversion returns the constraint set [C] exactly when the
    form holds, under each of the six names, the value of the level [C]
    gives that name: the very items the scoring system reads off [C]. *)
Theorem create_user_constraints_from_input_spec
    (inputs : gmap string string) (C : UserConstraints) :
  UIController.create_user_constraints_from_input repr inputs = Ok C
  ↔ Forall (λ item : string * string, inputs !! item.1 = Some item.2)
      (ScoringSystem.constraint_mapping C).
Proof. apply create_user_constraints_iff. Qed.

Lemma validate_constraint_inputs_iff (inputs : gmap string string) :
  UIController.validate_constraint_inputs inputs = true
  ↔ ∃ C, UIController.create_user_constraints_from_input repr inputs = Ok C.
Proof.
  assert (∀ key,
            match inputs !! key with
            | None => false
            | Some value => bool_decide (value ∈ UIController.constraint_options)
            end = true
            ↔ ∃ level, inputs !! key = Some (level_value level)) as Hfield.
  { intros key. destruct (inputs !! key) as [value|].
    - rewrite bool_decide_eq_true, option_is_level.
      split; intros [level Hlevel]; exists level; congruence.
    - split; [discriminate | by intros [? ?]]. }
  unfold UIController.validate_constraint_inputs,
    UIController.required_constraints.
  cbn [forallb]. rewrite !andb_true_iff, !Hfield. split.
  - intros ([b Hb] & [t Ht] & [s Hs] & [l Hl] & [o Ho] & [u Hu] & _).
    exists {| budget_sensitivity := b; expected_traffic := t;
              scalability_requirement := s; latency_sensitivity := l;
              operational_overhead_tolerance := o;
              time_to_market_urgency := u |}.
    apply create_user_constraints_iff.
    unfold ScoringSystem.constraint_mapping.
    by rewrite !Forall_cons, Forall_nil.
  - intros [C HC]. apply create_user_constraints_iff in HC.
    unfold ScoringSystem.constraint_mapping in HC.
    rewrite !Forall_cons, Forall_nil in HC. cbn [fst snd] in HC.
    destruct HC as (Hb & Ht & Hs & Hl & Ho & Hu & _).
    repeat split; by eexists.
Qed.

(** X23. The validation answers True exactly when the conversion
    returns: validated forms convert, and every other form makes the
    conversion raise. *)
Theorem validate_constraint_inputs_spec (inputs : gmap string string) :
  UIController.validate_constraint_inputs inputs = true
  ↔ ∃ C, UIController.create_user_constraints_from_input repr inputs = Ok C.
Proof. apply validate_constraint_inputs_iff. Qed.

Lemma constraint_mapping_lookup (C : UserConstraints) :
  Forall (λ item : string * string,
      (list_to_map (ScoringSystem.constraint_mapping C) : gmap string string)
        !! item.1 = Some item.2)
    (ScoringSystem.constraint_mapping C).
Proof.
  destruct C as [b t s l o u]. unfold ScoringSystem.constraint_mapping.
  repeat (apply Forall_cons; split); [..|by apply Forall_nil];
    vm_compute; reflexivity.
Qed.

(** X24. Round trip: the form filled with the values of a constraint set
    passes the validation and converts back to that constraint set. *)
Theorem constraints_round_trip (C : UserConstraints) :
  UIController.validate_constraint_inputs
    (list_to_map (ScoringSystem.constraint_mapping C)) = true
  ∧ UIController.create_user_constraints_from_input repr
      (list_to_map (ScoringSystem.constraint_mapping C)) = Ok C.
Proof.
  assert (UIController.create_user_constraints_from_input repr
            (list_to_map (ScoringSystem.constraint_mapping C)) = Ok C) as Hback.
  { apply create_user_constraints_iff, constraint_mapping_lookup. }
  split; [|exact Hback].
  apply validate_constraint_inputs_iff. by exists C.
Qed.

(** X25. From the form to the result: a form that passes the validation
    converts to a constraint set on which the comparison of the program
    returns. *)
Theorem validated_inputs_compare (inputs : gmap string string) :
  UIController.validate_constraint_inputs inputs = true →
  ∃ C result,
    UIController.create_user_constraints_from_input repr inputs = Ok C
    ∧ compare_services C = Ok result.
Proof.
  intros [C HC]%validate_constraint_inputs_iff.
  destruct (compare_services_returns C) as (evals & _ & Hresult).
  exists C. eexists. split; [exact HC | exact Hresult].
Qed.

End Boundary.

Lemma validated_inputs_compare_witness :
  UIController.validate_constraint_inputs
    (list_to_map (ScoringSystem.constraint_mapping all_medium)) = true
  ∧ ∃ C result,
      UIController.create_user_constraints_from_input (λ s, s)
        (list_to_map (ScoringSystem.constraint_mapping all_medium)) = Ok C
      ∧ compare_services C = Ok result.
Proof.
  assert (UIController.validate_constraint_inputs
            (list_to_map (ScoringSystem.constraint_mapping all_medium)) = true)
    as Hvalid by (vm_compute; reflexivity).
  split; [exact Hvalid|].
  exact (validated_inputs_compare (λ s, s) _ Hvalid).
Defined.

(** ** Phrase statistics *)

Lemma count_phrases_loop_lookup (recommendation_lower : string)
    (phrases : list string) (stats : gmap string nat) (phrase : string) :
  NoDup phrases →
  foldl (λ stats p,
           if str_in (lower p) recommendation_lower
           then alter S p stats else stats) stats phrases !! phrase
  = (if bool_decide (phrase ∈ phrases)
        && str_in (lower phrase) recommendation_lower
     then S else id) <$> stats !! phrase.
Proof.
  intros Hnodup. revert stats.
  induction Hnodup as [|p phrases Hfresh _ IH]; intros stats.
  - cbn [foldl]. rewrite bool_decide_eq_false_2 by apply not_elem_of_nil.
    by destruct (stats !! phrase).
  - cbn [foldl]. rewrite IH.
    destruct (decide (phrase = p)) as [->|Hne].
    + rewrite (bool_decide_eq_false_2 (p ∈ phrases)) by done.
      rewrite (bool_decide_eq_true_2 (p ∈ p :: phrases))
        by (apply elem_of_cons; by left).
      cbn [andb].
      destruct (str_in (lower p) recommendation_lower).
      * rewrite lookup_alter_eq. by destruct (stats !! p).
      * by destruct (stats !! p).
    + assert (bool_decide (phrase ∈ p :: phrases)
              = bool_decide (phrase ∈ phrases)) as ->.
      { apply bool_decide_ext. rewrite elem_of_cons. tauto. }
      destruct (str_in (lower p) recommendation_lower);
        [by rewrite lookup_alter_ne|done].
Qed.

Lemma required_phrases_NoDup : NoDup ExplanationGenerator.required_phrases.
Proof. by_evaluation. Qed.

Lemma usage_stats_loop_lookup (items : list (string * string))
    (stats : gmap string nat) (phrase : string) :
  phrase ∈ ExplanationGenerator.required_phrases →
  foldl (λ stats item, ExplanationGenerator.count_phrases item.2 stats)
    stats items !! phrase
  = (λ n, n + length (filter (λ item : string * string,
                        str_in (lower phrase) (lower item.2) = true) items))%nat
    <$> stats !! phrase.
Proof.
  intros Hphrase. revert stats.
  induction items as [|[service recommendation] items IH]; intros stats.
  - cbn [foldl filter length]. destruct (stats !! phrase); simpl; [|done].
    by rewrite Nat.add_0_r.
  - cbn [foldl snd]. rewrite IH.
    unfold ExplanationGenerator.count_phrases. cbv zeta.
    rewrite (count_phrases_loop_lookup _ _ _ _ required_phrases_NoDup).
    rewrite (bool_decide_eq_true_2 _ Hphrase). cbn [andb].
    rewrite filter_cons. cbn [snd].
    destruct (str_in (lower phrase) (lower recommendation)) eqn:Hfound.
    + rewrite decide_True by done. destruct (stats !! phrase); simpl; [|done].
      f_equal. lia.
    + rewrite decide_False by done. by destruct (stats !! phrase).
Qed.

Lemma get_phrase_usage_stats_lookup (recommendations : gmap string string)
    (phrase : string) :
  phrase ∈ ExplanationGenerator.required_phrases →
  ExplanationGenerator.get_phrase_usage_stats recommendations !! phrase
  = Some (length (filter (λ item : string * string,
                    str_in (lower phrase) (lower item.2) = true)
                  (map_to_list recommendations))).
Proof.
  intros Hphrase. unfold ExplanationGenerator.get_phrase_usage_stats. cbv zeta.
  rewrite (usage_stats_loop_lookup _ _ _ Hphrase).
  assert ((list_to_map ((λ phrase, (phrase, 0%nat))
             <$> ExplanationGenerator.required_phrases)
           : gmap string nat) !! phrase = Some 0%nat) as ->; [|done].
  apply elem_of_list_to_map_1.
  - rewrite <- list_fmap_compose. rewrite list_fmap_id.
    apply required_phrases_NoDup.
  - apply list_elem_of_fmap. by exists phrase.
Qed.

(** X26. The statistics have one entry for each required phrase and no
    other: the number of recommendations that hold the phrase, ignoring
    case; so no count exceeds the number of recommendations. *)
Theorem get_phrase_usage_stats_spec (recommendations : gmap string string)
    (phrase : string) :
  (phrase ∈ ExplanationGenerator.required_phrases →
   ExplanationGenerator.get_phrase_usage_stats recommendations !! phrase
   = Some (length (filter (λ item : string * string,
                     str_in (lower phrase) (lower item.2) = true)
                   (map_to_list recommendations)))
   ∧ (length (filter (λ item : string * string,
                str_in (lower phrase) (lower item.2) = true)
              (map_to_list recommendations))
      ≤ size recommendations)%nat)
  ∧ (phrase ∉ ExplanationGenerator.required_phrases →
     ExplanationGenerator.get_phrase_usage_stats recommendations !! phrase
     = None).
Proof.
  split.
  - intros Hphrase. split.
    + by apply get_phrase_usage_stats_lookup.
    + rewrite <- length_map_to_list. apply length_filter.
  - intros Hout.
    unfold ExplanationGenerator.get_phrase_usage_stats. cbv zeta.
    assert (∀ (items : list (string * string)) (stats : gmap string nat),
              stats !! phrase = None →
              foldl (λ stats item,
                       ExplanationGenerator.count_phrases item.2 stats)
                stats items !! phrase = None) as Hloop.
    { induction items as [|item items IH]; intros stats Hnone; [done|].
      cbn [foldl]. apply IH.
      unfold ExplanationGenerator.count_phrases. cbv zeta.
      rewrite (count_phrases_loop_lookup _ _ _ _ required_phrases_NoDup).
      by rewrite Hnone. }
    apply Hloop. apply not_elem_of_list_to_map.
    rewrite <- list_fmap_compose, list_fmap_id. exact Hout.
Qed.

Lemma get_phrase_usage_stats_spec_witness :
  ExplanationGenerator.get_phrase_usage_stats
    {[ "EC2" := "This is a good choice when idle. The trade-off here is cost.";
       "Lambda" := "The Trade-Off Here Is latency." ]}
    !! "The trade-off here is" = Some 2%nat
  ∧ ExplanationGenerator.get_phrase_usage_stats
      {[ "EC2" := "This is a good choice when idle. The trade-off here is cost.";
         "Lambda" := "The Trade-Off Here Is latency." ]}
      !! "The winner is" = None.
Proof.
  split.
  - transitivity
      (Some (length (filter (λ item : string * string,
                       str_in (lower "The trade-off here is") (lower item.2)
                       = true)
                     (map_to_list
                        ({[ "EC2" := "This is a good choice when idle. The trade-off here is cost.";
                            "Lambda" := "The Trade-Off Here Is latency." ]}
                         : gmap string string)))));
      [|vm_compute; reflexivity].
    apply (proj1 (get_phrase_usage_stats_spec _ "The trade-off here is")).
    by_evaluation.
  - apply (proj2 (get_phrase_usage_stats_spec _ "The winner is")).
    by_evaluation.
Defined.

Lemma recommendation_for_trade_off C key evaluation text :
  recommendation_for C key evaluation = Some text →
  str_in "The trade-off here is" text = true.
Proof.
  unfold recommendation_for. repeat case_bool_decide; intros [= <-].
  - apply ec2_recommendation_phrase.
  - apply lambda_recommendation_phrase.
  - apply fargate_recommendation_phrase.
Qed.

Lemma filter_all {A} (P : A → Prop) `{∀ x, Decision (P x)} (l : list A) :
  Forall P l → filter P l = l.
Proof.
  induction 1 as [|x l Hx _ IH]; [done|].
  by rewrite filter_cons_True, IH.
Qed.

(** X27. Whatever the evaluations and the constraint set, the statistics
    of the recommendations the generator writes count every one of them
    under "The trade-off here is". *)
Theorem usage_stats_of_generated
    (E : gmap string ServiceEvaluation) (C : UserConstraints) :
  ExplanationGenerator.get_phrase_usage_stats
    (ExplanationGenerator.generate_contextual_recommendations E C)
    !! "The trade-off here is"
  = Some (size (ExplanationGenerator.generate_contextual_recommendations E C)).
Proof.
  rewrite get_phrase_usage_stats_lookup by by_evaluation.
  rewrite filter_all; [by rewrite length_map_to_list|].
  apply Forall_forall. intros [key text] Hin.
  apply elem_of_map_to_list in Hin.
  rewrite generate_contextual_recommendations_lookup in Hin.
  destruct (E !! key) as [evaluation|]; simpl in Hin; [|done].
  cbn [snd]. apply (str_in_lower "The trade-off here is").
  by apply (recommendation_for_trade_off C key evaluation).
Qed.
